(** * gptschema: the type-to-schema converter of [internal/converter.go]

    A shallow embedding of [deref], [parseJSONTag], [parseArrayItemType],
    [structProperties] and [JsonTypeOf], with the properties of the
    conversion stated and proved over it.

    Go's [reflect.Type] values form a graph that may be cyclic
    ([type Node struct { Next *Node }], [type S []S], [type P *P]).  A type is
    therefore an identity ([reflect.Type_]) and its description is looked up
    in a table [U]; every recursive function carries fuel, and [OutOfFuel]
    is the outcome of a run that does not return. *)

From Stdlib Require Import ZArith Lia Ascii String.
From stdpp Require Import base gmap strings list.

Set Warnings "-register-all,-clear-no-such-hyp".
Local Open Scope Z_scope.

(** ** The part of package [reflect] the converter uses *)

Module reflect.

(** [reflect.Kind], in the order of the Go declaration. *)
Inductive Kind :=
| Invalid
| Bool
| Int | Int8 | Int16 | Int32 | Int64
| Uint | Uint8 | Uint16 | Uint32 | Uint64 | Uintptr
| Float32 | Float64
| Complex64 | Complex128
| Array | Chan | Func | Interface | Map | Pointer | Slice | String | Struct
| UnsafePointer.

#[global] Instance Kind_eq_dec : EqDecision Kind.
Proof. solve_decision. Defined.

(** The identity of a type.  Two [reflect.Type] values are the same map key
    exactly when they are the same type. *)
Abbreviation Type_ := string (only parsing).

(** [reflect.StructField]; [Tag] holds the result of [field.Tag.Get("json")],
    the only way the converter reads the tag. *)
Record StructField := {
  Name : string;
  PkgPath : string;
  Typ : Type_;
  Tag : string;
  Anonymous : bool
}.

(** What the methods [Kind], [Elem], [NumField] and [Field] answer for one
    type.  [elem] is [None] for a kind without element type, where
    [Elem] panics. *)
Record rtype := {
  kind : Kind;
  elem : option Type_;
  fields : list StructField
}.

End reflect.

(** ** Values, errors, options *)

(** The dynamic values the converter stores in an [interface{}]: a bare
    string, a bool, a [[]string], a [Schema] (a map from keyword to value) and
    a [[]Schema]. *)
Inductive value :=
| VNil
| VString (s : string)
| VBool (b : bool)
| VStrings (l : list string)
| VSchema (m : gmap string value)
| VSchemas (l : list (gmap string value)).

Inductive error := ErrUnsupportedType | ErrCircularRef.

#[global] Instance error_eq_dec : EqDecision error.
Proof. solve_decision. Defined.

Record Options := {
  AllowAdditionalProperty : bool;
  MaxDepth : Z
}.

Definition DefaultOptions : Options :=
  {| AllowAdditionalProperty := false; MaxDepth := 50 |}.

(** Go's [int] on a 64-bit platform: [depth+1] wraps around. *)
Definition int_min : Z := - 2 ^ 63.
Definition int_max : Z := 2 ^ 63 - 1.
Definition int_wrap (z : Z) : Z := (z + 2 ^ 63) mod 2 ^ 64 - 2 ^ 63.
Definition int_add (a b : Z) : Z := int_wrap (a + b).

(** The outcome of a call: a value, one of the two errors, a run-time panic
    of the [reflect] package, or no return at all. *)
Inductive result (A : Type) :=
| Ok (a : A)
| Err (e : error)
| Panic
| OutOfFuel.
Arguments Ok {A} a.
Arguments Err {A} e.
Arguments Panic {A}.
Arguments OutOfFuel {A}.

(** An outcome that is not a value, at another result type ([return nil,
    err], or the panic going on); never applied to [Ok]. *)
Definition fail_as {A B : Type} (r : result A) : result B :=
  match r with
  | Ok _ => Panic
  | Err e => Err e
  | Panic => Panic
  | OutOfFuel => OutOfFuel
  end.

(** [visited map[reflect.Type]bool] only ever receives [true] and is only
    read, set and deleted by key; a key that maps to [false] reads as an
    absent key.  A map is therefore taken for the set of its keys that map to
    [true], the types marked in progress.  The map is shared by all calls, so
    every function returns it. *)
Abbreviation Visited := (gset reflect.Type_) (only parsing).

(** ** Helper functions *)

(** [strings.Split(s, ",")]: never empty, one more segment than commas. *)
Fixpoint split_comma (s : string) : list string :=
  match s with
  | EmptyString => [EmptyString]
  | String c rest =>
      if Ascii.eqb c ","%char then EmptyString :: split_comma rest
      else match split_comma rest with
           | seg :: segs => String c seg :: segs
           | [] => [String c EmptyString]
           end
  end.

(** The [for _, part := range parts[1:]] loop of [parseJSONTag]. *)
Fixpoint has_omitempty (parts : list string) : bool :=
  match parts with
  | [] => false
  | part :: rest => if String.eqb part "omitempty" then true else has_omitempty rest
  end.

Definition parseJSONTag (fieldName tag : string) : string * bool :=
  if String.eqb tag "" then (fieldName, false)
  else
    let parts := split_comma tag in
    let name := match parts with
                | p0 :: _ => if negb (String.eqb p0 "") then p0 else fieldName
                | [] => fieldName
                end in
    (name, has_omitempty (tail parts)).

(** The two [switch v := fieldSchema.(type)] of the converter. *)

(** [parseArrayItemType], lines 76-83. *)
Definition itemSchema (schema : value) : value :=
  match schema with
  | VString s => VSchema {[ "type" := VString s ]}
  | VSchema s => VSchema s
  | _ => schema
  end.

(** [structProperties], lines 126-148: the value stored at [props[fieldName]]. *)
Definition fieldProperty (isOptional : bool) (fieldSchema : value) : value :=
  match fieldSchema with
  | VString v =>
      if isOptional then VSchema {[ "type" := VStrings [v; "null"] ]}
      else VSchema {[ "type" := VString v ]}
  | VSchema v =>
      if isOptional
      then VSchema {[ "anyOf" := VSchemas [v; {[ "type" := VString "null" ]}] ]}
      else VSchema v
  | v => v
  end.

(** [JsonTypeOf], line 193: [Schema{"type": "array", "items": items}]. *)
Definition arraySchema (items : value) : gmap string value :=
  <["type" := VString "array"]> (<["items" := items]> ∅).

(** [JsonTypeOf], lines 200-207: the object schema, with ["required"] only
    when [len(required) > 0]. *)
Definition objectSchema (opts : Options) (props : gmap string value)
    (required : list string) : gmap string value :=
  let schema : gmap string value :=
    <["type" := VString "object"]>
    (<["properties" := VSchema props]>
    (<["additionalProperties" := VBool (AllowAdditionalProperty opts)]> ∅)) in
  match required with
  | [] => schema
  | _ :: _ => <["required" := VStrings required]> schema
  end.

Section Converter.

(** The table of type descriptions. *)
Variable U : reflect.Type_ -> reflect.rtype.

(** [deref]: [for t.Kind() == reflect.Pointer { t = t.Elem() }]. *)
Fixpoint deref (fuel : nat) (t : reflect.Type_) : result reflect.Type_ :=
  match fuel with
  | O => OutOfFuel
  | S fuel' =>
      match reflect.kind (U t) with
      | reflect.Pointer =>
          match reflect.elem (U t) with
          | Some e => deref fuel' e
          | None => Panic
          end
      | _ => Ok t
      end
  end.

(** The body of the [for i := 0; i < t.NumField(); i++] loop of
    [structProperties], over the fields still to visit.  [sp] and [jt] are
    the two recursive calls, [structProperties(field.Type, visited, depth,
    opts)] and [JsonTypeOf(field.Type, visited, depth, opts)]. *)
Fixpoint fieldLoop
    (sp : reflect.Type_ -> Visited -> result (gmap string value * list string) * Visited)
    (jt : reflect.Type_ -> Visited -> result value * Visited)
    (fs : list reflect.StructField)
    (props : gmap string value) (required : list string) (visited : Visited)
    : result (gmap string value * list string) * Visited :=
  match fs with
  | [] => (Ok (props, required), visited)
  | field :: rest =>
      if negb (String.eqb (reflect.PkgPath field) "") then
        fieldLoop sp jt rest props required visited
      else if reflect.Anonymous field then
        match sp (reflect.Typ field) visited with
        | (Ok (embeddedProps, embeddedRequired), visited') =>
            fieldLoop sp jt rest (embeddedProps ∪ props)
                      (required ++ embeddedRequired) visited'
        | (r, visited') => (fail_as r, visited')
        end
      else
        let jsonTag := reflect.Tag field in
        if String.eqb jsonTag "-" then
          fieldLoop sp jt rest props required visited
        else
          let '(fieldName, isOptional) := parseJSONTag (reflect.Name field) jsonTag in
          match jt (reflect.Typ field) visited with
          | (Ok fieldSchema, visited') =>
              fieldLoop sp jt rest
                        (<[fieldName := fieldProperty isOptional fieldSchema]> props)
                        (required ++ [fieldName]) visited'
          | (r, visited') => (fail_as r, visited')
          end
  end.

(** The bodies of the three mutually recursive functions, each over the
    functions it calls.  Each returns its outcome and the [visited] map as
    it leaves it. *)
Section Bodies.

Variable deref_rec : reflect.Type_ -> result reflect.Type_.
Variable JsonTypeOf_rec parseArrayItemType_rec :
  reflect.Type_ -> Visited -> Z -> Options -> result value * Visited.
Variable structProperties_rec :
  reflect.Type_ -> Visited -> Z -> Options ->
  result (gmap string value * list string) * Visited.

Definition parseArrayItemType_body (t : reflect.Type_) (visited : Visited)
    (depth : Z) (opts : Options) : result value * Visited :=
  match reflect.elem (U t) with
  | None => (Panic, visited) (* Elem of a type without element type *)
  | Some e =>
      match JsonTypeOf_rec e visited depth opts with
      | (Ok schema, visited') => (Ok (itemSchema schema), visited')
      | (r, visited') => (fail_as r, visited')
      end
  end.

Definition structProperties_body (t : reflect.Type_) (visited : Visited)
    (depth : Z) (opts : Options)
    : result (gmap string value * list string) * Visited :=
  match reflect.kind (U t) with
  | reflect.Struct =>
      fieldLoop (fun t' v' => structProperties_rec t' v' depth opts)
                (fun t' v' => JsonTypeOf_rec t' v' depth opts)
                (reflect.fields (U t)) ∅ [] visited
  | _ => (Panic, visited) (* NumField of a non-struct type *)
  end.

(** The [switch t.Kind()] of [JsonTypeOf], lines 176-211. *)
Definition kindSwitch (t : reflect.Type_) (visited : Visited)
    (depth : Z) (opts : Options) : result value * Visited :=
  match reflect.kind (U t) with
  | reflect.String => (Ok (VString "string"), visited)
  | reflect.Bool => (Ok (VString "boolean"), visited)
  | reflect.Int | reflect.Int8 | reflect.Int16 | reflect.Int32
  | reflect.Int64 | reflect.Uint | reflect.Uint8 | reflect.Uint16
  | reflect.Uint32 | reflect.Uint64 =>
      (Ok (VString "integer"), visited)
  | reflect.Float32 | reflect.Float64 =>
      (Ok (VString "number"), visited)
  | reflect.Slice | reflect.Array =>
      match parseArrayItemType_rec t visited (int_add depth 1) opts with
      | (Ok items, visited') => (Ok (VSchema (arraySchema items)), visited')
      | (r, visited') => (fail_as r, visited')
      end
  | reflect.Struct =>
      match structProperties_rec t visited (int_add depth 1) opts with
      | (Ok (props, required), visited') =>
          (Ok (VSchema (objectSchema opts props required)), visited')
      | (r, visited') => (fail_as r, visited')
      end
  | _ => (Err ErrUnsupportedType, visited)
  end.

Definition JsonTypeOf_body (t : reflect.Type_) (visited : Visited)
    (depth : Z) (opts : Options) : result value * Visited :=
  if depth >? MaxDepth opts then (Err ErrCircularRef, visited)
  else
    match deref_rec t with
    | Ok t =>
        match reflect.kind (U t) with
        | reflect.Struct =>
            if bool_decide (t ∈ visited) then (Err ErrCircularRef, visited)
            else
              (* visited[t] = true; defer delete(visited, t) *)
              let '(r, visited') := kindSwitch t ({[ t ]} ∪ visited) depth opts in
              (r, visited' ∖ {[ t ]})
        | _ => kindSwitch t visited depth opts
        end
    | r => (fail_as r, visited)
    end.

End Bodies.

(** The recursion, on fuel: one unit per nested call. *)
Fixpoint JsonTypeOf (fuel : nat) (t : reflect.Type_) (visited : Visited)
    (depth : Z) (opts : Options) {struct fuel} : result value * Visited :=
  match fuel with
  | O => (OutOfFuel, visited)
  | S fuel' =>
      JsonTypeOf_body (deref fuel') (parseArrayItemType fuel')
                      (structProperties fuel') t visited depth opts
  end

with parseArrayItemType (fuel : nat) (t : reflect.Type_) (visited : Visited)
    (depth : Z) (opts : Options) {struct fuel} : result value * Visited :=
  match fuel with
  | O => (OutOfFuel, visited)
  | S fuel' => parseArrayItemType_body (JsonTypeOf fuel') t visited depth opts
  end

with structProperties (fuel : nat) (t : reflect.Type_) (visited : Visited)
    (depth : Z) (opts : Options) {struct fuel}
    : result (gmap string value * list string) * Visited :=
  match fuel with
  | O => (OutOfFuel, visited)
  | S fuel' =>
      structProperties_body (JsonTypeOf fuel') (structProperties fuel')
                            t visited depth opts
  end.

(** The loop of [structProperties] at a given fuel, from any loop state. *)
Definition structFields (fuel : nat) (fs : list reflect.StructField)
    (props : gmap string value) (required : list string) (visited : Visited)
    (depth : Z) (opts : Options) :=
  fieldLoop (fun t' v' => structProperties fuel t' v' depth opts)
            (fun t' v' => JsonTypeOf fuel t' v' depth opts)
            fs props required visited.

End Converter.

(** ** Notions used in the statements *)

Definition integer_family : list reflect.Kind :=
  [ reflect.Int; reflect.Int8; reflect.Int16; reflect.Int32; reflect.Int64;
    reflect.Uint; reflect.Uint8; reflect.Uint16; reflect.Uint32; reflect.Uint64 ].

Definition float_family : list reflect.Kind := [ reflect.Float32; reflect.Float64 ].

(** The kinds the converter has a case for (pointers are resolved before). *)
Definition supported_kinds : list reflect.Kind :=
  [ reflect.String; reflect.Bool ] ++ integer_family ++ float_family ++
  [ reflect.Slice; reflect.Array; reflect.Struct ].

(** [outer] is [n] levels of slice or array around [inner]. *)
Fixpoint array_nest (U : reflect.Type_ -> reflect.rtype) (n : nat)
    (outer inner : reflect.Type_) : Prop :=
  match n with
  | O => outer = inner
  | S n' =>
      (reflect.kind (U outer) = reflect.Slice \/ reflect.kind (U outer) = reflect.Array) /\
      exists e, reflect.elem (U outer) = Some e /\ array_nest U n' e inner
  end.

(** [Fits U open n t]: [t] is a finite tree of supported kinds that needs at
    most [n] nesting levels below the call that converts it, and expands no
    struct of [open] nor a struct inside itself.  A slice or array takes one
    level for its element, a struct one level for its named fields; an
    embedded struct shares the level of the struct that embeds it. *)
Inductive Fits (U : reflect.Type_ -> reflect.rtype)
  : Visited -> nat -> reflect.Type_ -> Prop :=
| Fits_primitive open n t :
    reflect.kind (U t) ∈ [reflect.String; reflect.Bool] ++ integer_family ++ float_family ->
    Fits U open n t
| Fits_pointer open n t e :
    reflect.kind (U t) = reflect.Pointer -> reflect.elem (U t) = Some e ->
    Fits U open n e ->
    Fits U open n t
| Fits_sequence open n t e :
    reflect.kind (U t) = reflect.Slice \/ reflect.kind (U t) = reflect.Array ->
    reflect.elem (U t) = Some e ->
    Fits U open n e ->
    Fits U open (S n) t
| Fits_struct open n t :
    reflect.kind (U t) = reflect.Struct -> t ∉ open ->
    FieldsFit U ({[ t ]} ∪ open) n (reflect.fields (U t)) ->
    Fits U open n t
with FieldsFit (U : reflect.Type_ -> reflect.rtype)
  : Visited -> nat -> list reflect.StructField -> Prop :=
| FieldsFit_nil open n : FieldsFit U open n []
| FieldsFit_unexported open n f fs :
    reflect.PkgPath f <> "" ->
    FieldsFit U open n fs ->
    FieldsFit U open n (f :: fs)
| FieldsFit_embedded open n f fs :
    reflect.PkgPath f = "" -> reflect.Anonymous f = true ->
    reflect.kind (U (reflect.Typ f)) = reflect.Struct ->
    FieldsFit U open n (reflect.fields (U (reflect.Typ f))) ->
    FieldsFit U open n fs ->
    FieldsFit U open n (f :: fs)
| FieldsFit_skipped open n f fs :
    reflect.PkgPath f = "" -> reflect.Anonymous f = false -> reflect.Tag f = "-" ->
    FieldsFit U open n fs ->
    FieldsFit U open n (f :: fs)
| FieldsFit_named open n f fs :
    reflect.PkgPath f = "" -> reflect.Anonymous f = false -> reflect.Tag f <> "-" ->
    Fits U open n (reflect.Typ f) ->
    FieldsFit U open (S n) fs ->
    FieldsFit U open (S n) (f :: fs).

Scheme Fits_mut := Minimality for Fits Sort Prop
  with FieldsFit_mut := Minimality for FieldsFit Sort Prop.
Combined Scheme Fits_FieldsFit_ind from Fits_mut, FieldsFit_mut.

(** [required] and the keys of [props] are the same set. *)
Definition same_names (props : gmap string value) (required : list string) : Prop :=
  forall name, name ∈ required <-> is_Some (props !! name).

(** More fuel does not change the outcome of a run of [f] that returns:
    [g] returns the same. *)
Definition returns_more {A : Type}
    (f g : reflect.Type_ -> Visited -> Z -> Options -> result A * Visited) : Prop :=
  forall t v d o r v', f t v d o = (r, v') -> r <> OutOfFuel -> g t v d o = (r, v').

(** [f] leaves [visited] as it found it. *)
Definition restores {A : Type}
    (f : reflect.Type_ -> Visited -> Z -> Options -> result A * Visited) : Prop :=
  forall t v d o, snd (f t v d o) = v.

(** Conversion of [t] at [depth] succeeds from some fuel on. *)
Definition converts (U : reflect.Type_ -> reflect.rtype) (opts : Options)
    (open : Visited) (n : nat) (t : reflect.Type_) : Prop :=
  forall depth, int_min <= depth -> depth + Z.of_nat n <= MaxDepth opts ->
  exists fuel s, forall k, (fuel <= k)%nat ->
    JsonTypeOf U k t open depth opts = (Ok s, open).

(** The field loop at [depth] succeeds from some fuel on, from any state. *)
Definition fields_convert (U : reflect.Type_ -> reflect.rtype) (opts : Options)
    (open : Visited) (n : nat) (fs : list reflect.StructField) : Prop :=
  forall depth,
    (n <> O -> int_min <= depth /\ depth + Z.of_nat n - 1 <= MaxDepth opts) ->
    forall props required, exists fuel props' required', forall k, (fuel <= k)%nat ->
      structFields U k fs props required open depth opts =
      (Ok (props', required'), open).

(** [t] is a pointer type with element type [e]. *)
Definition points_to (U : reflect.Type_ -> reflect.rtype) (e t : reflect.Type_) : Prop :=
  reflect.kind (U t) = reflect.Pointer /\ reflect.elem (U t) = Some e.

(** The struct [t] embeds the struct [e] by value, through an exported
    field.  Go rejects a struct that contains itself by value, so in the
    table of a Go program this relation has no infinite descending chain. *)
Definition embeds (U : reflect.Type_ -> reflect.rtype) (e t : reflect.Type_) : Prop :=
  reflect.kind (U t) = reflect.Struct /\ reflect.kind (U e) = reflect.Struct /\
  exists f, f ∈ reflect.fields (U t) /\ reflect.PkgPath f = "" /\
            reflect.Anonymous f = true /\ reflect.Typ f = e.

(** A run that returns: from some fuel on, the outcome is the same and is
    not [OutOfFuel]. *)
Definition settles {A : Type} (run : nat -> result A * Visited) : Prop :=
  exists fuel r v', r <> OutOfFuel /\ forall k, (fuel <= k)%nat -> run k = (r, v').

(** ** Example type tables, from the fixtures of the repository *)

Definition prim (k : reflect.Kind) : reflect.rtype :=
  {| reflect.kind := k; reflect.elem := None; reflect.fields := [] |}.
Definition ptr_to (e : reflect.Type_) : reflect.rtype :=
  {| reflect.kind := reflect.Pointer; reflect.elem := Some e; reflect.fields := [] |}.
Definition slice_of (e : reflect.Type_) : reflect.rtype :=
  {| reflect.kind := reflect.Slice; reflect.elem := Some e; reflect.fields := [] |}.
Definition map_of (e : reflect.Type_) : reflect.rtype :=
  {| reflect.kind := reflect.Map; reflect.elem := Some e; reflect.fields := [] |}.
Definition struct_of (fs : list reflect.StructField) : reflect.rtype :=
  {| reflect.kind := reflect.Struct; reflect.elem := None; reflect.fields := fs |}.
Definition exported (name typ tag : string) : reflect.StructField :=
  {| reflect.Name := name; reflect.PkgPath := ""; reflect.Typ := typ;
     reflect.Tag := tag; reflect.Anonymous := false |}.
Definition unexported (name typ tag : string) : reflect.StructField :=
  {| reflect.Name := name; reflect.PkgPath := "internal"; reflect.Typ := typ;
     reflect.Tag := tag; reflect.Anonymous := false |}.
Definition embedded (typ : string) : reflect.StructField :=
  {| reflect.Name := typ; reflect.PkgPath := ""; reflect.Typ := typ;
     reflect.Tag := ""; reflect.Anonymous := true |}.

(** A table given by its entries; a name without entry has kind [Invalid]. *)
Fixpoint table (entries : list (string * reflect.rtype)) (t : reflect.Type_) : reflect.rtype :=
  match entries with
  | [] => prim reflect.Invalid
  | (name, d) :: rest => if String.eqb name t then d else table rest t
  end.

Definition basic_types : list (string * reflect.rtype) :=
  [ ("string", prim reflect.String); ("bool", prim reflect.Bool);
    ("int", prim reflect.Int); ("float64", prim reflect.Float64);
    ("map[string]int", map_of "int") ].

(** The address record of the specification's scenario. *)
Definition address_types : reflect.Type_ -> reflect.rtype :=
  table (basic_types ++
    [ ("Address", struct_of [ exported "City" "string" "city";
                              exported "Country" "string" "country";
                              exported "PostalCode" "string" "postalCode,omitempty" ]);
      ("Route", struct_of [ exported "From" "Address" "from";
                            exported "To" "Address" "to" ]) ]).

(** The schema of [Address], as the specification gives it. *)
Definition address_schema : value :=
  VSchema (objectSchema DefaultOptions
    (<["city" := VSchema {[ "type" := VString "string" ]}]>
    (<["country" := VSchema {[ "type" := VString "string" ]}]>
    (<["postalCode" := VSchema {[ "type" := VStrings ["string"; "null"] ]}]> ∅)))
    ["city"; "country"; "postalCode"]).

(** [type P *P], a pointer type that is its own element type, and a struct
    with a field of that type. *)
Definition pointer_cycle : reflect.Type_ -> reflect.rtype :=
  table [ ("P", ptr_to "P");
          ("Holder", struct_of [ exported "Link" "P" "link" ]) ].

(** A linked list: [type Node struct { Value string; Next *Node }]. *)
Definition linked_list : reflect.Type_ -> reflect.rtype :=
  table [ ("string", prim reflect.String);
          ("Node", struct_of [ exported "Value" "string" "value";
                               exported "Next" "*Node" "next,omitempty" ]);
          ("*Node", ptr_to "Node") ].

(** An embedded struct and a later field that emit the same name. *)
Definition colliding : reflect.Type_ -> reflect.rtype :=
  table (basic_types ++
    [ ("Base", struct_of [ exported "ID" "int" "id" ]);
      ("Derived", struct_of [ embedded "Base"; exported "Ident" "string" "id" ]) ]).


(** Fields the loop does not convert, and an embedded pointer. *)
Definition edge_cases : reflect.Type_ -> reflect.rtype :=
  table (basic_types ++
    [ ("Private", struct_of [ exported "Value" "string" "value";
                              unexported "index" "map[string]int" "" ]);
      ("Base", struct_of [ exported "ID" "int" "id" ]);
      ("*Base", ptr_to "Base");
      ("WithPointer", struct_of [ embedded "*Base";
                                  exported "Title" "string" "title" ]) ]).

(** A record with one nested record field. *)
Definition nested_records : reflect.Type_ -> reflect.rtype :=
  table (basic_types ++
    [ ("Outer", struct_of [ exported "Inner" "Inner" "inner" ]);
      ("Inner", struct_of [ exported "Value" "string" "value" ]);
      ("[]int", slice_of "int"); ("[][]int", slice_of "[]int");
      ("[]map[string]int", slice_of "map[string]int") ]).

(** [Node], [BaseInfo] and [ExtendedInfo] of [fixtures.go]. *)
Definition fixtures : reflect.Type_ -> reflect.rtype :=
  table (basic_types ++
    [ ("Node", struct_of [ exported "Value" "string" "value";
                           exported "Next" "*Node" "next,omitempty" ]);
      ("*Node", ptr_to "Node");
      ("BaseInfo", struct_of [ exported "ID" "int" "id";
                               exported "CreatedAt" "string" "created_at" ]);
      ("ExtendedInfo", struct_of [ embedded "BaseInfo";
                                   exported "Title" "string" "title";
                                   exported "Content" "string" "content,omitempty" ]) ]).

(** Structs that refer to themselves where the converter does not look, or
    after a field that fails, or through an embedded pointer; and one struct
    type in three sibling fields. *)
Definition self_references : reflect.Type_ -> reflect.rtype :=
  table (basic_types ++
    [ ("Tagged", struct_of [ exported "Index" "map[string]int" "index";
                             exported "Next" "*Tagged" "next,omitempty" ]);
      ("*Tagged", ptr_to "Tagged");
      ("Hidden", struct_of [ exported "Value" "string" "value";
                             unexported "next" "*Hidden" "" ]);
      ("*Hidden", ptr_to "Hidden");
      ("Dashed", struct_of [ exported "Value" "string" "value";
                             exported "Next" "*Dashed" "-" ]);
      ("*Dashed", ptr_to "Dashed");
      ("Embeds", struct_of [ embedded "*Embeds" ]);
      ("*Embeds", ptr_to "Embeds");
      ("Point", struct_of [ exported "X" "int" "x" ]);
      ("Triangle", struct_of [ exported "A" "Point" "a";
                               exported "B" "Point" "b";
                               exported "C" "Point" "c" ]) ]).

(** ** The public entry points *)

(** [GenerateSchema] with its functional options, the current revision of
    [gptschema.go]. *)
Module gptschema.

(** An error of [GenerateSchema]: one made on the spot with [fmt.Errorf],
    known by its message, or the error of the converter, returned as it is. *)
Inductive failure :=
| Errorf (msg : string)
| Returned (err : error).

(** What a call yields: the pointer to a schema, an error, a panic, or no
    return. *)
Inductive outcome :=
| Schema (schema : gmap string value)
| Failed (err : failure)
| Panics
| NoReturn.

(** An [Option] is a function that updates the options it is pointed to:
    what it does to them. *)
Definition Option := Options -> Options.

Definition WithMaxDepth (depth : Z) : Option :=
  fun opts => {| AllowAdditionalProperty := AllowAdditionalProperty opts;
                 MaxDepth := depth |}.

(** [for _, opt := range opts { opt(options) }], from [DefaultOptions()]. *)
Definition applyOptions (opts : list Option) : Options :=
  fold_left (fun options opt => opt options) opts DefaultOptions.

(** The verb [%T] on the values the converter can return. *)
Definition typeName (v : value) : string :=
  match v with
  | VNil => "<nil>"
  | VString _ => "string"
  | VBool _ => "bool"
  | VStrings _ => "[]string"
  | VSchema _ => "internal.Schema"
  | VSchemas _ => "[]internal.Schema"
  end.

(** [v] is the dynamic type of the argument, [None] for a nil interface
    value, on which [reflect.TypeOf] returns nil.  The loop over pointers is
    the one of [deref]. *)
Definition GenerateSchema (U : reflect.Type_ -> reflect.rtype) (fuel : nat)
    (v : option reflect.Type_) (opts : list Option) : outcome :=
  match v with
  | None => Failed (Errorf "cannot generate schema for nil value")
  | Some t =>
      match deref U fuel t with
      | Ok t =>
          match reflect.kind (U t) with
          | reflect.Struct =>
              let options := applyOptions opts in
              match JsonTypeOf U fuel t ∅ 0 options with
              | (Ok result, _) =>
                  match result with
                  | VSchema schema => Schema schema
                  | _ => Failed (Errorf
                           ("unexpected schema type: expected internal.Schema, got "
                            ++ typeName result))
                  end
              | (Err err, _) => Failed (Returned err)
              | (Panic, _) => Panics
              | (OutOfFuel, _) => NoReturn
              end
          | _ => Failed (Errorf "the schema is expected to be a Go struct")
          end
      | Err err => Failed (Returned err)
      | Panic => Panics
      | OutOfFuel => NoReturn
      end
  end.

End gptschema.

(** [GenerateSchema] of [src/gptschema.go], the revision without options:
    no test of the argument, and a result that is not a [Schema] is wrapped
    as [Schema{"type": result}]. *)
Module gptschema0.

Definition GenerateSchema (U : reflect.Type_ -> reflect.rtype) (fuel : nat)
    (v : option reflect.Type_) : gptschema.outcome :=
  match v with
  | None => gptschema.Panics (* t.Kind() on the nil Type *)
  | Some t =>
      match deref U fuel t with
      | Ok t =>
          match JsonTypeOf U fuel t ∅ 0 DefaultOptions with
          | (Ok result, _) =>
              match result with
              | VSchema schema => gptschema.Schema schema
              | _ => gptschema.Schema {[ "type" := result ]}
              end
          | (Err err, _) => gptschema.Failed (gptschema.Returned err)
          | (Panic, _) => gptschema.Panics
          | (OutOfFuel, _) => gptschema.NoReturn
          end
      | Err err => gptschema.Failed (gptschema.Returned err)
      | Panic => gptschema.Panics
      | OutOfFuel => gptschema.NoReturn
      end
  end.

End gptschema0.

(** ** Further notions *)

(** [outer] is [n] levels of pointer around [inner], which is no pointer. *)
Fixpoint pointer_chain (U : reflect.Type_ -> reflect.rtype) (n : nat)
    (outer inner : reflect.Type_) : Prop :=
  match n with
  | O => outer = inner /\ reflect.kind (U inner) <> reflect.Pointer
  | S n' =>
      reflect.kind (U outer) = reflect.Pointer /\
      exists e, reflect.elem (U outer) = Some e /\ pointer_chain U n' e inner
  end.

(** A string without comma. *)
Fixpoint comma_free (s : string) : bool :=
  match s with
  | EmptyString => true
  | String c rest => negb (Ascii.eqb c ","%char) && comma_free rest
  end.

Definition primitive_names : list string := ["string"; "boolean"; "integer"; "number"].

(** The schema nodes the converter builds: a primitive type, a primitive
    type or null, a schema or null, an array of a node, and an object whose
    [required] names are exactly its properties, each a node, and which
    carries [additionalProperties] as the options say.  No other keyword
    occurs in a node. *)
Inductive Node (opts : Options) : value -> Prop :=
| Node_primitive name :
    name ∈ primitive_names ->
    Node opts (VSchema {[ "type" := VString name ]})
| Node_nullable name :
    name ∈ primitive_names ->
    Node opts (VSchema {[ "type" := VStrings [name; "null"] ]})
| Node_anyOf schema :
    Node opts (VSchema schema) ->
    Node opts (VSchema {[ "anyOf" := VSchemas [schema; {[ "type" := VString "null" ]}] ]})
| Node_array items :
    Node opts items ->
    Node opts (VSchema (arraySchema items))
| Node_object props required :
    same_names props required ->
    (forall name x, props !! name = Some x -> Node opts x) ->
    Node opts (VSchema (objectSchema opts props required)).

(** What [JsonTypeOf] may return: a bare primitive name or a node. *)
Definition name_or_node (opts : Options) (s : value) : Prop :=
  (exists name, name ∈ primitive_names /\ s = VString name) \/ Node opts s.

(** The fields the loop of [structProperties] does something with. *)
Definition visible (f : reflect.StructField) : bool :=
  String.eqb (reflect.PkgPath f) "" &&
  (reflect.Anonymous f || negb (String.eqb (reflect.Tag f) "-")).

(** The names one field adds to [required]: none for a field that is
    skipped, those of the embedded struct, or the emitted name. *)
Definition contributes (U : reflect.Type_ -> reflect.rtype) (fuel : nat)
    (visited : Visited) (depth : Z) (opts : Options) (f : reflect.StructField)
    : list string :=
  if negb (visible f) then []
  else if reflect.Anonymous f then
    match structProperties U fuel (reflect.Typ f) visited depth opts with
    | (Ok (_, embeddedRequired), _) => embeddedRequired
    | _ => []
    end
  else [ (parseJSONTag (reflect.Name f) (reflect.Tag f)).1 ].

Definition emitted_names (U : reflect.Type_ -> reflect.rtype) (fuel : nat)
    (visited : Visited) (depth : Z) (opts : Options)
    (fs : list reflect.StructField) : list string :=
  concat (map (contributes U fuel visited depth opts) fs).

(** Every pointer, slice and array type has an element type, as in Go. *)
Definition elems_present (U : reflect.Type_ -> reflect.rtype) : Prop :=
  forall t, reflect.kind (U t) = reflect.Pointer \/ reflect.kind (U t) = reflect.Slice \/
            reflect.kind (U t) = reflect.Array ->
            is_Some (reflect.elem (U t)).

(** The declared type of every exported embedded field is itself a struct. *)
Definition embedded_are_structs (U : reflect.Type_ -> reflect.rtype) : Prop :=
  forall t f, reflect.kind (U t) = reflect.Struct -> f ∈ reflect.fields (U t) ->
              reflect.PkgPath f = "" -> reflect.Anonymous f = true ->
              reflect.kind (U (reflect.Typ f)) = reflect.Struct.

(** The same options with another depth limit. *)
Definition with_MaxDepth (opts : Options) (m : Z) : Options :=
  {| AllowAdditionalProperty := AllowAdditionalProperty opts; MaxDepth := m |}.

(** An outcome that the depth limit has no part in: a value, the failure
    [ErrUnsupportedType], a panic. *)
Definition settled {A : Type} (r : result A) : Prop :=
  match r with
  | Ok _ | Err ErrUnsupportedType | Panic => True
  | Err ErrCircularRef | OutOfFuel => False
  end.

(** Every property of [props] is a node. *)
Definition node_props (opts : Options) (props : gmap string value) : Prop :=
  forall name x, props !! name = Some x -> Node opts x.

(** More records: a field of an unsupported type between two that convert,
    a record with nothing to convert, pointers to records, an embedded
    record. *)
Definition more_types : reflect.Type_ -> reflect.rtype :=
  table (basic_types ++
    [ ("Leaky", struct_of [ exported "Name" "string" "name";
                            exported "Index" "map[string]int" "index";
                            exported "Rest" "string" "rest" ]);
      ("Query", struct_of [ unexported "text" "string" "";
                            exported "Secret" "map[string]int" "-" ]);
      ("Item", struct_of [ exported "ID" "int" "id" ]);
      ("*Item", ptr_to "Item"); ("**Item", ptr_to "*Item");
      ("[]*Item", slice_of "*Item");
      ("Cart", struct_of [ embedded "Item";
                           exported "Items" "[]*Item" "items,omitempty";
                           exported "Note" "*string" "note,omitempty" ]);
      ("*string", ptr_to "string");
      ("*Cart", ptr_to "Cart");
      ("Broken", struct_of [ exported "Name" "string" "name";
                             embedded "*Item";
                             exported "Rest" "string" "rest" ]) ]).

(** ** Basic facts *)

(** A goal about a run with fuel [k], where [k] is known to be positive:
    spend one unit. *)
Tactic Notation "spend" ident(k) := destruct k as [|k]; [lia|].

Lemma int_add_small (d : Z) : int_min <= d -> d < int_max -> int_add d 1 = d + 1.
Proof.
  unfold int_add, int_wrap, int_min, int_max. intros Hlo Hhi.
  rewrite Z.mod_small by lia. lia.
Qed.

Lemma fail_as_not_Ok {A B : Type} (r : result A) (b : B) : fail_as r <> Ok b.
Proof. by destruct r. Qed.

Lemma fail_as_OutOfFuel {A B : Type} (r : result A) :
  (forall a, r <> Ok a) -> r <> OutOfFuel -> (fail_as r : result B) <> OutOfFuel.
Proof. destruct r; naive_solver. Qed.

(** The cases of [TestParseJSONTag], and two tags that start with ["-"]. *)
Example parseJSONTag_tests :
  parseJSONTag "MyField" "" = ("MyField", false) /\
  parseJSONTag "MyField" "my_field" = ("my_field", false) /\
  parseJSONTag "MyField" "my_field,omitempty" = ("my_field", true) /\
  parseJSONTag "MyField" ",omitempty" = ("MyField", true) /\
  parseJSONTag "MyField" "my_field,omitempty,string" = ("my_field", true) /\
  parseJSONTag "MyField" "-," = ("-", false) /\
  parseJSONTag "MyField" "-,omitempty" = ("-", true).
Proof. repeat split. Qed.

(** [StructWithTags]-like records of the fixtures convert to the schemas the
    tests expect. *)
Example ExtendedInfo_schema :
  JsonTypeOf fixtures 5 "ExtendedInfo" ∅ 0 DefaultOptions =
    (Ok (VSchema (objectSchema DefaultOptions
       (<["id" := VSchema {[ "type" := VString "integer" ]}]>
       (<["created_at" := VSchema {[ "type" := VString "string" ]}]>
       (<["title" := VSchema {[ "type" := VString "string" ]}]>
       (<["content" := VSchema {[ "type" := VStrings ["string"; "null"] ]}]> ∅))))
       ["id"; "created_at"; "title"; "content"])), ∅).
Proof. vm_compute. reflexivity. Qed.

(** An unexported field is not looked at, whatever its type. *)
Example unexported_field_is_skipped :
  JsonTypeOf edge_cases 4 "Private" ∅ 0 DefaultOptions =
    (Ok (VSchema (objectSchema DefaultOptions
                    {[ "value" := VSchema {[ "type" := VString "string" ]} ]}
                    ["value"])), ∅).
Proof. vm_compute. reflexivity. Qed.

(** [structProperties] is called on the declared type of an embedded field:
    on an embedded pointer, [NumField] panics. *)
Example embedded_pointer_panics :
  JsonTypeOf edge_cases 4 "WithPointer" ∅ 0 DefaultOptions = (Panic, ∅).
Proof. vm_compute. reflexivity. Qed.

Example Address_schema :
  JsonTypeOf address_types 4 "Address" ∅ 0 DefaultOptions = (Ok address_schema, ∅).
Proof. vm_compute. reflexivity. Qed.

Section Facts.

Variable U : reflect.Type_ -> reflect.rtype.

(** *** More fuel does not change the outcome of a run that returns *)

Lemma deref_S (n : nat) (t : reflect.Type_) (r : result reflect.Type_) :
  deref U n t = r -> r <> OutOfFuel -> deref U (S n) t = r.
Proof.
  revert t. induction n as [|n IH]; intros t E Hr; [simpl in E; congruence|].
  change (deref U (S (S n)) t) with
    (match reflect.kind (U t) with
     | reflect.Pointer =>
         match reflect.elem (U t) with
         | Some e => deref U (S n) e
         | None => Panic
         end
     | _ => Ok t
     end).
  simpl in E.
  destruct (reflect.kind (U t)); try exact E.
  destruct (reflect.elem (U t)); [|exact E]. by apply IH.
Qed.

Lemma fieldLoop_more sp sp' jt jt' :
  (forall t v r v', sp t v = (r, v') -> r <> OutOfFuel -> sp' t v = (r, v')) ->
  (forall t v r v', jt t v = (r, v') -> r <> OutOfFuel -> jt' t v = (r, v')) ->
  forall fs props required v r v',
    fieldLoop sp jt fs props required v = (r, v') -> r <> OutOfFuel ->
    fieldLoop sp' jt' fs props required v = (r, v').
Proof.
  intros Hsp Hjt. induction fs as [|f fs IH]; intros props required v r v' E Hr;
    simpl in *; [done|].
  destruct (negb _); [by apply IH|].
  destruct (reflect.Anonymous f).
  - destruct (sp (reflect.Typ f) v) as [r1 v1] eqn:E1.
    assert (r1 <> OutOfFuel) as H1.
    { intros ->. simpl in E. congruence. }
    rewrite (Hsp _ _ _ _ E1 H1).
    destruct r1 as [[ep er]| | |]; try done. by apply IH.
  - destruct (String.eqb _ "-"); [by apply IH|].
    destruct (parseJSONTag _ _) as [fieldName isOptional].
    destruct (jt (reflect.Typ f) v) as [r1 v1] eqn:E1.
    assert (r1 <> OutOfFuel) as H1.
    { intros ->. simpl in E. congruence. }
    rewrite (Hjt _ _ _ _ E1 H1).
    destruct r1; try done. by apply IH.
Qed.

Lemma parseArrayItemType_body_more jt jt' :
  returns_more jt jt' ->
  returns_more (parseArrayItemType_body U jt) (parseArrayItemType_body U jt').
Proof.
  intros Hjt t v d o r v' E Hr. unfold parseArrayItemType_body in *.
  destruct (reflect.elem (U t)) as [e|]; [|done].
  destruct (jt e v d o) as [r1 v1] eqn:E1.
  assert (r1 <> OutOfFuel) as H1 by (intros ->; simpl in E; congruence).
  by rewrite (Hjt _ _ _ _ _ _ E1 H1).
Qed.

Lemma structProperties_body_more jt jt' sp sp' :
  returns_more jt jt' -> returns_more sp sp' ->
  returns_more (structProperties_body U jt sp) (structProperties_body U jt' sp').
Proof.
  intros Hjt Hsp t v d o r v' E Hr. unfold structProperties_body in *.
  destruct (reflect.kind (U t)); try done.
  eapply fieldLoop_more; [| |exact E|exact Hr]; intros; [by apply Hsp|by apply Hjt].
Qed.

Lemma kindSwitch_more pa pa' sp sp' :
  returns_more pa pa' -> returns_more sp sp' ->
  returns_more (kindSwitch U pa sp) (kindSwitch U pa' sp').
Proof.
  intros Hpa Hsp t v d o r v' E Hr. unfold kindSwitch in *.
  destruct (reflect.kind (U t)); try done.
  - destruct (pa t v (int_add d 1) o) as [r1 v1] eqn:E1.
    assert (r1 <> OutOfFuel) as H1 by (intros ->; simpl in E; congruence).
    by rewrite (Hpa _ _ _ _ _ _ E1 H1).
  - destruct (pa t v (int_add d 1) o) as [r1 v1] eqn:E1.
    assert (r1 <> OutOfFuel) as H1 by (intros ->; simpl in E; congruence).
    by rewrite (Hpa _ _ _ _ _ _ E1 H1).
  - destruct (sp t v (int_add d 1) o) as [r1 v1] eqn:E1.
    assert (r1 <> OutOfFuel) as H1 by (intros ->; simpl in E; congruence).
    by rewrite (Hsp _ _ _ _ _ _ E1 H1).
Qed.

Lemma JsonTypeOf_body_more dr dr' pa pa' sp sp' :
  (forall t r, dr t = r -> r <> OutOfFuel -> dr' t = r) ->
  returns_more pa pa' -> returns_more sp sp' ->
  returns_more (JsonTypeOf_body U dr pa sp) (JsonTypeOf_body U dr' pa' sp').
Proof.
  intros Hdr Hpa Hsp t v d o r v' E Hr. unfold JsonTypeOf_body in *.
  destruct (d >? MaxDepth o); [done|].
  destruct (dr t) as [t1| | |] eqn:E1;
    try (rewrite (Hdr t _ E1) by done; exact E);
    [|simpl in E; congruence].
  rewrite (Hdr t _ E1) by done.
  pose proof (kindSwitch_more _ _ _ _ Hpa Hsp) as Hsw.
  destruct (reflect.kind (U t1)); try (by apply Hsw).
  destruct (bool_decide _); [done|].
  destruct (kindSwitch U pa sp t1 _ d o) as [r1 v1] eqn:E2.
  assert (r1 <> OutOfFuel) as H1 by (intros ->; simpl in E; congruence).
  by rewrite (Hsw _ _ _ _ _ _ E2 H1).
Qed.

Lemma fuel_S (n : nat) :
  returns_more (JsonTypeOf U n) (JsonTypeOf U (S n)) /\
  returns_more (parseArrayItemType U n) (parseArrayItemType U (S n)) /\
  returns_more (structProperties U n) (structProperties U (S n)).
Proof.
  induction n as [|n (IHj & IHp & IHs)].
  - repeat split; intros t v d o r v' E Hr; simpl in E; congruence.
  - repeat split.
    + apply JsonTypeOf_body_more; [|done|done].
      intros t r E Hr. by apply deref_S.
    + by apply parseArrayItemType_body_more.
    + by apply structProperties_body_more.
Qed.

Lemma JsonTypeOf_fuel (n m : nat) t v d o r v' :
  JsonTypeOf U n t v d o = (r, v') -> r <> OutOfFuel -> (n <= m)%nat ->
  JsonTypeOf U m t v d o = (r, v').
Proof.
  intros E Hr Hle. induction Hle as [|m Hle IH]; [done|].
  by apply (proj1 (fuel_S m)).
Qed.

Lemma parseArrayItemType_fuel (n m : nat) t v d o r v' :
  parseArrayItemType U n t v d o = (r, v') -> r <> OutOfFuel -> (n <= m)%nat ->
  parseArrayItemType U m t v d o = (r, v').
Proof.
  intros E Hr Hle. induction Hle as [|m Hle IH]; [done|].
  by apply (proj1 (proj2 (fuel_S m))).
Qed.

Lemma structProperties_fuel (n m : nat) t v d o r v' :
  structProperties U n t v d o = (r, v') -> r <> OutOfFuel -> (n <= m)%nat ->
  structProperties U m t v d o = (r, v').
Proof.
  intros E Hr Hle. induction Hle as [|m Hle IH]; [done|].
  by apply (proj2 (proj2 (fuel_S m))).
Qed.

Lemma deref_fuel (n m : nat) t r :
  deref U n t = r -> r <> OutOfFuel -> (n <= m)%nat -> deref U m t = r.
Proof.
  intros E Hr Hle. induction Hle as [|m Hle IH]; [done|]. by apply deref_S.
Qed.

Lemma structFields_fuel (n m : nat) fs props required v d o r v' :
  structFields U n fs props required v d o = (r, v') -> r <> OutOfFuel ->
  (n <= m)%nat ->
  structFields U m fs props required v d o = (r, v').
Proof.
  intros E Hr Hle. unfold structFields in *.
  eapply fieldLoop_more; [| |exact E|exact Hr]; cbv beta; intros.
  - eapply structProperties_fuel; eauto.
  - eapply JsonTypeOf_fuel; eauto.
Qed.

(** *** Every call leaves [visited] as it found it *)

Lemma fieldLoop_restores sp jt :
  (forall t v, snd (sp t v) = v) -> (forall t v, snd (jt t v) = v) ->
  forall fs props required v, snd (fieldLoop sp jt fs props required v) = v.
Proof.
  intros Hsp Hjt. induction fs as [|f fs IH]; intros props required v; simpl; [done|].
  destruct (negb _); [by apply IH|].
  destruct (reflect.Anonymous f).
  - specialize (Hsp (reflect.Typ f) v).
    destruct (sp (reflect.Typ f) v) as [[[ep er]| | |] v1]; simpl in *; subst; auto.
  - destruct (String.eqb _ "-"); [by apply IH|].
    destruct (parseJSONTag _ _) as [fieldName isOptional].
    specialize (Hjt (reflect.Typ f) v).
    destruct (jt (reflect.Typ f) v) as [[s| | |] v1]; simpl in *; subst; auto.
Qed.

Lemma parseArrayItemType_body_restores jt :
  restores jt -> restores (parseArrayItemType_body U jt).
Proof.
  intros Hjt t v d o. unfold parseArrayItemType_body.
  destruct (reflect.elem (U t)) as [e|]; [|done].
  specialize (Hjt e v d o). by destruct (jt e v d o) as [[s| | |] v1].
Qed.

Lemma structProperties_body_restores jt sp :
  restores jt -> restores sp -> restores (structProperties_body U jt sp).
Proof.
  intros Hjt Hsp t v d o. unfold structProperties_body.
  destruct (reflect.kind (U t)); try done.
  apply fieldLoop_restores; intros; [apply Hsp|apply Hjt].
Qed.

Lemma kindSwitch_restores pa sp :
  restores pa -> restores sp -> restores (kindSwitch U pa sp).
Proof.
  intros Hpa Hsp t v d o. unfold kindSwitch.
  destruct (reflect.kind (U t)); try done.
  - specialize (Hpa t v (int_add d 1) o). by destruct (pa _ _ _ _) as [[s| | |] v1].
  - specialize (Hpa t v (int_add d 1) o). by destruct (pa _ _ _ _) as [[s| | |] v1].
  - specialize (Hsp t v (int_add d 1) o).
    by destruct (sp _ _ _ _) as [[[ps rq]| | |] v1].
Qed.

Lemma JsonTypeOf_body_restores dr pa sp :
  restores pa -> restores sp -> restores (JsonTypeOf_body U dr pa sp).
Proof.
  intros Hpa Hsp t v d o. unfold JsonTypeOf_body.
  destruct (d >? MaxDepth o); [done|].
  destruct (dr t) as [t1| | |]; try done.
  pose proof (kindSwitch_restores _ _ Hpa Hsp) as Hsw.
  destruct (reflect.kind (U t1)); try apply Hsw.
  case_bool_decide as Hin; [done|].
  specialize (Hsw t1 ({[t1]} ∪ v) d o).
  destruct (kindSwitch U pa sp t1 _ d o) as [r1 v1]. simpl in *. subst v1.
  set_solver.
Qed.

Lemma restores_all (n : nat) :
  restores (JsonTypeOf U n) /\ restores (parseArrayItemType U n) /\
  restores (structProperties U n).
Proof.
  induction n as [|n (IHj & IHp & IHs)]; [by repeat split|].
  repeat split.
  - by apply JsonTypeOf_body_restores.
  - by apply parseArrayItemType_body_restores.
  - by apply structProperties_body_restores.
Qed.

Lemma JsonTypeOf_visited n t v d o r v' :
  JsonTypeOf U n t v d o = (r, v') -> v' = v.
Proof. intros E. pose proof (proj1 (restores_all n) t v d o) as H. by rewrite E in H. Qed.

Lemma structProperties_visited n t v d o r v' :
  structProperties U n t v d o = (r, v') -> v' = v.
Proof.
  intros E. pose proof (proj2 (proj2 (restores_all n)) t v d o) as H.
  by rewrite E in H.
Qed.

Lemma structFields_visited n fs props required v d o r v' :
  structFields U n fs props required v d o = (r, v') -> v' = v.
Proof.
  intros E. unfold structFields in E.
  pose proof (fieldLoop_restores
                (fun t' v' => structProperties U n t' v' d o)
                (fun t' v' => JsonTypeOf U n t' v' d o)) as H.
  specialize (H (fun t v => proj2 (proj2 (restores_all n)) t v d o)
                (fun t v => proj1 (restores_all n) t v d o) fs props required v).
  by rewrite E in H.
Qed.

End Facts.

(** ** Kind dispatch *)

Section Dispatch.

Variable U : reflect.Type_ -> reflect.rtype.

Lemma deref_non_pointer (fuel : nat) (t : reflect.Type_) :
  reflect.kind (U t) <> reflect.Pointer -> deref U (S fuel) t = Ok t.
Proof. intros H. simpl. by destruct (reflect.kind (U t)). Qed.

Lemma JsonTypeOf_too_deep fuel t visited depth opts :
  depth > MaxDepth opts ->
  JsonTypeOf U (S fuel) t visited depth opts = (Err ErrCircularRef, visited).
Proof.
  intros H. simpl. unfold JsonTypeOf_body.
  destruct (Z.gtb_spec depth (MaxDepth opts)); [done|lia].
Qed.

(** A resolved type that is not a struct goes straight to the switch. *)
Lemma JsonTypeOf_leaf fuel t visited depth opts :
  reflect.kind (U t) <> reflect.Pointer ->
  reflect.kind (U t) <> reflect.Struct ->
  depth <= MaxDepth opts ->
  JsonTypeOf U (S (S fuel)) t visited depth opts =
  kindSwitch U (parseArrayItemType U (S fuel)) (structProperties U (S fuel))
             t visited depth opts.
Proof.
  intros Hp Hs Hd.
  change (JsonTypeOf U (S (S fuel)) t visited depth opts) with
    (JsonTypeOf_body U (deref U (S fuel)) (parseArrayItemType U (S fuel))
                     (structProperties U (S fuel)) t visited depth opts).
  unfold JsonTypeOf_body.
  destruct (Z.gtb_spec depth (MaxDepth opts)); [lia|].
  rewrite deref_non_pointer by done.
  by destruct (reflect.kind (U t)).
Qed.

Lemma unsupported_nested opts visited inner :
  reflect.kind (U inner) <> reflect.Pointer ->
  reflect.kind (U inner) ∉ supported_kinds ->
  MaxDepth opts <= int_max ->
  forall n outer depth fuel,
    array_nest U n outer inner ->
    int_min <= depth -> depth + Z.of_nat n <= MaxDepth opts ->
    JsonTypeOf U (2 * n + 2 + fuel) outer visited depth opts =
    (Err ErrUnsupportedType, visited).
Proof.
  intros Hp Hk Hmax. induction n as [|n IH]; intros outer depth fuel Hn Hlo Hd.
  - simpl in Hn. subst outer.
    change (2 * 0 + 2 + fuel)%nat with (S (S fuel)).
    rewrite JsonTypeOf_leaf; [|done| |lia].
    + unfold kindSwitch.
      destruct (reflect.kind (U inner)); try done;
        exfalso; apply Hk; unfold supported_kinds, integer_family, float_family;
        set_solver.
    + intros E. apply Hk. rewrite E. unfold supported_kinds. set_solver.
  - destruct Hn as (Hk' & e & He & Hn).
    replace (2 * S n + 2 + fuel)%nat with (S (S (2 * n + 2 + fuel))) by lia.
    rewrite JsonTypeOf_leaf; [| | |lia]; [|destruct Hk' as [-> | ->]; done..].
    assert (parseArrayItemType U (S (2 * n + 2 + fuel)) outer visited
              (int_add depth 1) opts = (Err ErrUnsupportedType, visited)) as Hpa.
    { simpl. unfold parseArrayItemType_body. rewrite He.
      rewrite int_add_small by lia.
      change (n + (n + 0) + 2 + fuel)%nat with (2 * n + 2 + fuel)%nat.
      rewrite IH; [done|done|lia|lia]. }
    unfold kindSwitch. destruct Hk' as [-> | ->]; by rewrite Hpa.
Qed.

Lemma kindSwitch_Ok_shape pa sp t visited depth opts s v' :
  kindSwitch U pa sp t visited depth opts = (Ok s, v') ->
  s ∈ [VString "string"; VString "boolean"; VString "integer"; VString "number"]
  \/ exists m, s = VSchema m.
Proof.
  unfold kindSwitch. intros E.
  destruct (reflect.kind (U t)); simplify_eq; try (left; set_solver).
  - destruct (pa _ _ _ _) as [[items| | |] v1]; simplify_eq. right; eauto.
  - destruct (pa _ _ _ _) as [[items| | |] v1]; simplify_eq. right; eauto.
  - destruct (sp _ _ _ _) as [[[ps rq]| | |] v1]; simplify_eq. right; eauto.
Qed.

Lemma JsonTypeOf_Ok_shape fuel t visited depth opts s v' :
  JsonTypeOf U fuel t visited depth opts = (Ok s, v') ->
  s ∈ [VString "string"; VString "boolean"; VString "integer"; VString "number"]
  \/ exists m, s = VSchema m.
Proof.
  destruct fuel as [|fuel]; [done|]. simpl. unfold JsonTypeOf_body. intros E.
  destruct (depth >? MaxDepth opts); [done|].
  destruct (deref U fuel t) as [t1| | |]; try done.
  destruct (reflect.kind (U t1)); try (by eapply kindSwitch_Ok_shape).
  destruct (bool_decide _); [done|].
  destruct (kindSwitch _ _ _ _ _ _ _) as [r1 v1] eqn:E1. simplify_eq.
  by eapply kindSwitch_Ok_shape.
Qed.

End Dispatch.

(** ** One step of each function *)

Section Steps.

Variable U : reflect.Type_ -> reflect.rtype.

Lemma structFields_nil k props required v d o :
  structFields U k [] props required v d o = (Ok (props, required), v).
Proof. done. Qed.

Lemma structFields_unexported k f fs props required v d o :
  reflect.PkgPath f <> "" ->
  structFields U k (f :: fs) props required v d o =
  structFields U k fs props required v d o.
Proof.
  intros H. unfold structFields. simpl.
  by apply String.eqb_neq in H as ->.
Qed.

Lemma structFields_skipped k f fs props required v d o :
  reflect.PkgPath f = "" -> reflect.Anonymous f = false -> reflect.Tag f = "-" ->
  structFields U k (f :: fs) props required v d o =
  structFields U k fs props required v d o.
Proof. intros H1 H2 H3. unfold structFields. simpl. by rewrite H1, H2, H3. Qed.

Lemma structFields_embedded k f fs props required v d o r v' :
  reflect.PkgPath f = "" -> reflect.Anonymous f = true ->
  structProperties U k (reflect.Typ f) v d o = (r, v') ->
  structFields U k (f :: fs) props required v d o =
  match r with
  | Ok (embeddedProps, embeddedRequired) =>
      structFields U k fs (embeddedProps ∪ props) (required ++ embeddedRequired) v' d o
  | _ => (fail_as r, v')
  end.
Proof.
  intros H1 H2 E. unfold structFields. simpl. rewrite H1, H2, E. simpl.
  by destruct r as [[ep er]| | |].
Qed.

Lemma structFields_named k f fs props required v d o r v' :
  reflect.PkgPath f = "" -> reflect.Anonymous f = false -> reflect.Tag f <> "-" ->
  JsonTypeOf U k (reflect.Typ f) v d o = (r, v') ->
  structFields U k (f :: fs) props required v d o =
  match r with
  | Ok fieldSchema =>
      let (fieldName, isOptional) := parseJSONTag (reflect.Name f) (reflect.Tag f) in
      structFields U k fs (<[fieldName := fieldProperty isOptional fieldSchema]> props)
                   (required ++ [fieldName]) v' d o
  | _ => (fail_as r, v')
  end.
Proof.
  intros H1 H2 H3 E. unfold structFields. simpl. rewrite H1, H2. simpl.
  apply String.eqb_neq in H3 as ->.
  destruct (parseJSONTag _ _) as [fieldName isOptional]. rewrite E.
  by destruct r.
Qed.

Lemma structProperties_S k t v d o :
  reflect.kind (U t) = reflect.Struct ->
  structProperties U (S k) t v d o =
  structFields U k (reflect.fields (U t)) ∅ [] v d o.
Proof. intros H. simpl. unfold structProperties_body. by rewrite H. Qed.

Lemma structProperties_not_struct k t v d o :
  reflect.kind (U t) <> reflect.Struct ->
  structProperties U (S k) t v d o = (Panic, v).
Proof. intros H. simpl. unfold structProperties_body. by destruct (reflect.kind (U t)). Qed.

(** [JsonTypeOf] on a struct type that is not at the depth limit. *)
Lemma JsonTypeOf_struct k t v d o :
  reflect.kind (U t) = reflect.Struct -> d <= MaxDepth o ->
  JsonTypeOf U (S (S k)) t v d o =
  if bool_decide (t ∈ v) then (Err ErrCircularRef, v)
  else
    match structProperties U (S k) t ({[ t ]} ∪ v) (int_add d 1) o with
    | (Ok (props, required), v') =>
        (Ok (VSchema (objectSchema o props required)), v' ∖ {[ t ]})
    | (r, v') => (fail_as r, v' ∖ {[ t ]})
    end.
Proof.
  intros Hk Hd.
  change (JsonTypeOf U (S (S k)) t v d o) with
    (JsonTypeOf_body U (deref U (S k)) (parseArrayItemType U (S k))
                     (structProperties U (S k)) t v d o).
  unfold JsonTypeOf_body.
  destruct (Z.gtb_spec d (MaxDepth o)); [lia|].
  rewrite deref_non_pointer by congruence. rewrite Hk.
  destruct (bool_decide _); [done|].
  unfold kindSwitch. rewrite Hk.
  by destruct (structProperties U (S k) t _ _ o) as [[[ps rq]| | |] v1].
Qed.

(** [JsonTypeOf] on a slice or array type that is not at the depth limit. *)
Lemma JsonTypeOf_sequence k t e v d o :
  reflect.kind (U t) = reflect.Slice \/ reflect.kind (U t) = reflect.Array ->
  reflect.elem (U t) = Some e -> d <= MaxDepth o ->
  JsonTypeOf U (S (S (S k))) t v d o =
  match JsonTypeOf U (S k) e v (int_add d 1) o with
  | (Ok schema, v') => (Ok (VSchema (arraySchema (itemSchema schema))), v')
  | (r, v') => (fail_as r, v')
  end.
Proof.
  intros Hk He Hd.
  rewrite JsonTypeOf_leaf; [| | |done]; [|destruct Hk as [-> | ->]; done..].
  assert (parseArrayItemType U (S (S k)) t v (int_add d 1) o =
          match JsonTypeOf U (S k) e v (int_add d 1) o with
          | (Ok schema, v') => (Ok (itemSchema schema), v')
          | (r, v') => (fail_as r, v')
          end) as Hpa.
  { change (parseArrayItemType U (S (S k)) t v (int_add d 1) o) with
      (parseArrayItemType_body U (JsonTypeOf U (S k)) t v (int_add d 1) o).
    unfold parseArrayItemType_body. by rewrite He. }
  unfold kindSwitch.
  destruct Hk as [-> | ->]; rewrite Hpa;
    by destruct (JsonTypeOf U (S k) e v (int_add d 1) o) as [[s| | |] v1].
Qed.

(** A pointer type converts as the type it points to. *)
Lemma JsonTypeOf_pointer k t e v d o r v' :
  reflect.kind (U t) = reflect.Pointer -> reflect.elem (U t) = Some e ->
  JsonTypeOf U k e v d o = (r, v') -> r <> OutOfFuel ->
  JsonTypeOf U (S k) t v d o = (r, v').
Proof.
  intros Hk He E Hr. destruct k as [|k]; [simpl in E; congruence|].
  pose proof (proj1 (fuel_S U (S k)) _ _ _ _ _ _ E Hr) as E'.
  change (JsonTypeOf_body U (deref U (S k)) (parseArrayItemType U (S k))
            (structProperties U (S k)) e v d o = (r, v')) in E'.
  change (JsonTypeOf_body U (deref U k) (parseArrayItemType U k)
            (structProperties U k) e v d o = (r, v')) in E.
  change (JsonTypeOf_body U (deref U (S k)) (parseArrayItemType U (S k))
            (structProperties U (S k)) t v d o = (r, v')).
  unfold JsonTypeOf_body in *.
  destruct (d >? MaxDepth o); [done|].
  assert (deref U (S k) t = deref U k e) as -> by (simpl; by rewrite Hk, He).
  assert (deref U k e <> OutOfFuel) as Hd.
  { intros Hd. rewrite Hd in E. simpl in E. congruence. }
  by rewrite (deref_S U k e _ eq_refl Hd) in E'.
Qed.

End Steps.

(** ** A type that fits the depth limit converts *)

Section FitsConverts.

Variable U : reflect.Type_ -> reflect.rtype.
Variable opts : Options.
Hypothesis MaxDepth_int : MaxDepth opts <= int_max.

Lemma primitive_converts open n t :
  reflect.kind (U t) ∈ [reflect.String; reflect.Bool] ++ integer_family ++ float_family ->
  converts U opts open n t.
Proof.
  intros Hk depth Hlo Hd.
  assert (exists s, forall k,
             kindSwitch U (parseArrayItemType U (S k)) (structProperties U (S k))
                        t open depth opts = (Ok s, open)) as [s Hs].
  { unfold kindSwitch, integer_family, float_family in *.
    destruct (reflect.kind (U t)); eauto; exfalso; set_solver. }
  exists 2%nat, s. intros k Hle. destruct k as [|[|k]]; [lia..|].
  rewrite JsonTypeOf_leaf; [done| | |lia].
  - intros E. rewrite E in Hk. unfold integer_family, float_family in Hk. set_solver.
  - intros E. rewrite E in Hk. unfold integer_family, float_family in Hk. set_solver.
Qed.

Lemma Fits_converts_all :
  (forall open n t, Fits U open n t -> converts U opts open n t) /\
  (forall open n fs, FieldsFit U open n fs -> fields_convert U opts open n fs).
Proof.
  apply Fits_FieldsFit_ind.
  - (* primitive *) intros open n t Hk. by apply primitive_converts.
  - (* pointer *)
    intros open n t e Hk He _ IH depth Hlo Hd.
    destruct (IH depth Hlo Hd) as (fuel & s & Hs).
    exists (S fuel), s. intros k Hle. spend k.
    eapply JsonTypeOf_pointer; eauto. apply Hs. lia.
  - (* slice, array *)
    intros open n t e Hk He _ IH depth Hlo Hd.
    assert (int_add depth 1 = depth + 1) as Hadd
        by (apply int_add_small; [done|unfold int_max in *; lia]).
    destruct (IH (depth + 1)) as (fuel & s & Hs); [lia|lia|].
    exists (S (S (S fuel))), (VSchema (arraySchema (itemSchema s))).
    intros k Hle. destruct k as [|[|[|k]]]; [lia..|].
    rewrite (JsonTypeOf_sequence U k t e) by (done || lia).
    rewrite Hadd, Hs by lia. done.
  - (* struct *)
    intros open n t Hk Hin _ IH depth Hlo Hd.
    destruct (IH (int_add depth 1)) with (props := (∅ : gmap string value))
      (required := ([] : list string)) as (fuel & ps & rq & Hs).
    { intros Hn. rewrite int_add_small; [lia|done|unfold int_max in *; lia]. }
    exists (S (S fuel)), (VSchema (objectSchema opts ps rq)).
    intros k Hle. destruct k as [|[|k]]; [lia..|].
    rewrite JsonTypeOf_struct by (done || lia).
    rewrite bool_decide_eq_false_2 by done.
    rewrite structProperties_S by done. rewrite Hs by lia.
    f_equal. set_solver.
  - (* no field left *)
    intros open n depth _ props required.
    exists O, props, required. intros k _. apply structFields_nil.
  - (* unexported field *)
    intros open n f fs Hp _ IH depth Hd props required.
    destruct (IH depth Hd props required) as (fuel & ps & rq & Hs).
    exists fuel, ps, rq. intros k Hle.
    rewrite structFields_unexported by done. by apply Hs.
  - (* embedded struct *)
    intros open n f fs Hp Ha Hk _ IHe _ IH depth Hd props required.
    destruct (IHe depth Hd ∅ []) as (fuel1 & eps & erq & Hs1).
    destruct (IH depth Hd (eps ∪ props) (required ++ erq)) as (fuel2 & ps & rq & Hs2).
    exists (S fuel1 `max` fuel2)%nat, ps, rq. intros k Hle.
    spend k.
    rewrite (structFields_embedded U (S k) f fs props required open depth opts
               (Ok (eps, erq)) open Hp Ha).
    + apply Hs2. lia.
    + rewrite structProperties_S by done. apply Hs1. lia.
  - (* field with tag "-" *)
    intros open n f fs Hp Ha Ht _ IH depth Hd props required.
    destruct (IH depth Hd props required) as (fuel & ps & rq & Hs).
    exists fuel, ps, rq. intros k Hle.
    rewrite structFields_skipped by done. by apply Hs.
  - (* named field *)
    intros open n f fs Hp Ha Ht _ IHf _ IH depth Hd props required.
    destruct (Hd ltac:(lia)) as [Hlo Hhi].
    destruct (IHf depth Hlo ltac:(lia)) as (fuel1 & s & Hs1).
    destruct (parseJSONTag (reflect.Name f) (reflect.Tag f))
      as [fieldName isOptional] eqn:Etag.
    destruct (IH depth Hd (<[fieldName := fieldProperty isOptional s]> props)
                (required ++ [fieldName])) as (fuel2 & ps & rq & Hs2).
    exists (fuel1 `max` fuel2)%nat, ps, rq. intros k Hle.
    rewrite (structFields_named U k f fs props required open depth opts
               (Ok s) open Hp Ha Ht) by (apply Hs1; lia).
    rewrite Etag. apply Hs2. lia.
Qed.

End FitsConverts.

(** ** The depth limit *)

Section DepthLimit.

Variable U : reflect.Type_ -> reflect.rtype.

Lemma too_deep_arrays opts visited inner fuel :
  MaxDepth opts < int_max ->
  forall n outer depth,
    array_nest U n outer inner ->
    int_min <= depth -> depth + Z.of_nat n > MaxDepth opts ->
    JsonTypeOf U (2 * n + 1 + fuel) outer visited depth opts =
    (Err ErrCircularRef, visited).
Proof.
  intros Hmax. induction n as [|n IH]; intros outer depth Hn Hlo Hd.
  - apply JsonTypeOf_too_deep. lia.
  - destruct (Z_gt_le_dec depth (MaxDepth opts)) as [Hgt|Hle].
    { replace (2 * S n + 1 + fuel)%nat with (S (2 * S n + fuel)) by lia.
      by apply JsonTypeOf_too_deep. }
    destruct Hn as (Hk & e & He & Hn).
    replace (2 * S n + 1 + fuel)%nat with (S (S (S (2 * n + fuel)))) by lia.
    rewrite (JsonTypeOf_sequence U _ outer e) by done.
    rewrite int_add_small by lia.
    replace (S (2 * n + fuel)) with (2 * n + 1 + fuel)%nat by lia.
    rewrite IH; [done|done|lia|lia].
Qed.

Lemma zero_MaxDepth_nested_field opts t f fuel :
  MaxDepth opts = 0 ->
  reflect.kind (U t) = reflect.Struct -> reflect.fields (U t) = [f] ->
  reflect.PkgPath f = "" -> reflect.Anonymous f = false -> reflect.Tag f <> "-" ->
  JsonTypeOf U (3 + fuel) t ∅ 0 opts = (Err ErrCircularRef, ∅).
Proof.
  intros Hmax Hk Hf Hp Ha Ht.
  change (3 + fuel)%nat with (S (S (S fuel))).
  rewrite JsonTypeOf_struct by (done || lia).
  rewrite bool_decide_eq_false_2 by set_solver.
  rewrite structProperties_S, Hf by done.
  rewrite (structFields_named U (S fuel) f [] ∅ [] _ (int_add 0 1) opts
             (Err ErrCircularRef) ({[t]} ∪ ∅) Hp Ha Ht).
  - simpl. f_equal. set_solver.
  - apply JsonTypeOf_too_deep. rewrite Hmax. by vm_compute.
Qed.

End DepthLimit.

(** ** The field loop *)

Section FieldLoop.

Variable U : reflect.Type_ -> reflect.rtype.

(** The loop over [l1 ++ l2] is the loop over [l1] followed, when that
    succeeds, by the loop over [l2] from the state it reached. *)
Lemma fieldLoop_app sp jt l1 l2 props required v :
  fieldLoop sp jt (l1 ++ l2) props required v =
  match fieldLoop sp jt l1 props required v with
  | (Ok (props1, required1), v1) => fieldLoop sp jt l2 props1 required1 v1
  | (r, v1) => (r, v1)
  end.
Proof.
  revert props required v. induction l1 as [|f l1 IH]; intros props required v; [done|].
  simpl. destruct (negb _); [apply IH|].
  destruct (reflect.Anonymous f).
  - destruct (sp (reflect.Typ f) v) as [[[ep er]| | |] v1]; [apply IH|done..].
  - destruct (String.eqb _ "-"); [apply IH|].
    destruct (parseJSONTag _ _) as [fieldName isOptional].
    destruct (jt (reflect.Typ f) v) as [[s| | |] v1]; [apply IH|done..].
Qed.

Lemma structFields_app k l1 l2 props required v d o :
  structFields U k (l1 ++ l2) props required v d o =
  match structFields U k l1 props required v d o with
  | (Ok (props1, required1), v1) => structFields U k l2 props1 required1 v1 d o
  | (r, v1) => (r, v1)
  end.
Proof. apply fieldLoop_app. Qed.

(** The loop only appends to [required]. *)
Lemma fieldLoop_required_grows sp jt fs props required v ps rq v' :
  fieldLoop sp jt fs props required v = (Ok (ps, rq), v') ->
  exists more, rq = required ++ more.
Proof.
  revert props required v. induction fs as [|f fs IH]; intros props required v E; simpl in E.
  - simplify_eq. exists []. by rewrite app_nil_r.
  - destruct (negb _); [by eapply IH|].
    destruct (reflect.Anonymous f).
    + destruct (sp (reflect.Typ f) v) as [[[ep er]| | |] v1]; try done.
      destruct (IH _ _ _ E) as [more ->]. exists (er ++ more). by rewrite app_assoc.
    + destruct (String.eqb _ "-"); [by eapply IH|].
      destruct (parseJSONTag _ _) as [fieldName isOptional].
      destruct (jt (reflect.Typ f) v) as [[s| | |] v1]; try done.
      destruct (IH _ _ _ E) as [more ->]. exists ([fieldName] ++ more).
      by rewrite app_assoc.
Qed.

(** A property of the loop state that every step keeps holds at the end. *)
Lemma fieldLoop_invariant (I : gmap string value -> list string -> Prop) sp jt :
  (forall t v ep er v' p r,
      sp t v = (Ok (ep, er), v') -> I p r -> I (ep ∪ p) (r ++ er)) ->
  (forall name x p r, I p r -> I (<[name := x]> p) (r ++ [name])) ->
  forall fs props required v ps rq v',
    I props required ->
    fieldLoop sp jt fs props required v = (Ok (ps, rq), v') -> I ps rq.
Proof.
  intros Hsp Hins. induction fs as [|f fs IH]; intros props required v ps rq v' HI E;
    simpl in E.
  - by simplify_eq.
  - destruct (negb _); [by eapply IH|].
    destruct (reflect.Anonymous f).
    + destruct (sp (reflect.Typ f) v) as [[[ep er]| | |] v1] eqn:E1; try done.
      eapply IH; [|exact E]. by eapply Hsp.
    + destruct (String.eqb _ "-"); [by eapply IH|].
      destruct (parseJSONTag _ _) as [fieldName isOptional].
      destruct (jt (reflect.Typ f) v) as [[s| | |] v1]; try done.
      eapply IH; [|exact E]. by apply Hins.
Qed.

Lemma same_names_union ep er p r :
  same_names ep er -> same_names p r -> same_names (ep ∪ p) (r ++ er).
Proof.
  intros He Hp name. rewrite elem_of_app, (He name), (Hp name).
  rewrite lookup_union. destruct (ep !! name), (p !! name); simpl;
    split; intros H; eauto; try tauto.
Qed.

Lemma same_names_insert name x p r :
  same_names p r -> same_names (<[name := x]> p) (r ++ [name]).
Proof.
  intros Hp n. rewrite elem_of_app, (Hp n), list_elem_of_singleton.
  destruct (decide (name = n)) as [->|Hne].
  - rewrite lookup_insert_eq. split; eauto.
  - rewrite lookup_insert_ne by done. split; [intros [|]; [done|congruence]|tauto].
Qed.

Lemma structProperties_same_names k t v d o ps rq v' :
  structProperties U k t v d o = (Ok (ps, rq), v') -> same_names ps rq.
Proof.
  revert t v d o ps rq v'. induction k as [|k IH]; intros t v d o ps rq v' E;
    [simpl in E; congruence|].
  simpl in E. unfold structProperties_body in E.
  destruct (reflect.kind (U t)); try done.
  eapply (fieldLoop_invariant same_names); [| |idtac|exact E].
  - intros t' v0 ep er v1 p r E1 Hp. apply same_names_union; [|done].
    eapply IH. exact E1.
  - intros. by apply same_names_insert.
  - intros name. rewrite lookup_empty. split; [by intros ?%elem_of_nil|by intros []].
Qed.

(** The name of a named field that is not skipped reaches [required]. *)
Lemma structFields_named_required k fs props required v d o ps rq v' f :
  structFields U k fs props required v d o = (Ok (ps, rq), v') ->
  f ∈ fs ->
  reflect.PkgPath f = "" -> reflect.Anonymous f = false -> reflect.Tag f <> "-" ->
  (parseJSONTag (reflect.Name f) (reflect.Tag f)).1 ∈ rq.
Proof.
  intros E Hin Hp Ha Ht.
  apply list_elem_of_split in Hin as (pre & post & ->).
  rewrite structFields_app in E.
  destruct (structFields U k pre props required v d o) as [[[p1 r1]| | |] v1]; try done.
  destruct (JsonTypeOf U k (reflect.Typ f) v1 d o) as [r2 v2] eqn:E2.
  rewrite (structFields_named U k f post p1 r1 v1 d o r2 v2 Hp Ha Ht E2) in E.
  destruct r2 as [s| | |]; try done.
  destruct (parseJSONTag _ _) as [fieldName isOptional]. simpl.
  apply fieldLoop_required_grows in E as [more ->].
  rewrite !elem_of_app, list_elem_of_singleton. tauto.
Qed.

(** The names of an embedded struct reach [required]. *)
Lemma structFields_embedded_required k fs props required v d o ps rq v' f :
  structFields U k fs props required v d o = (Ok (ps, rq), v') ->
  f ∈ fs ->
  reflect.PkgPath f = "" -> reflect.Anonymous f = true ->
  exists eps erq,
    structProperties U k (reflect.Typ f) v d o = (Ok (eps, erq), v) /\
    forall name, name ∈ erq -> name ∈ rq.
Proof.
  intros E Hin Hp Ha.
  apply list_elem_of_split in Hin as (pre & post & ->).
  rewrite structFields_app in E.
  destruct (structFields U k pre props required v d o) as [[[p1 r1]| | |] v1] eqn:E1;
    try done.
  apply structFields_visited in E1 as ->.
  destruct (structProperties U k (reflect.Typ f) v d o) as [r2 v2] eqn:E2.
  rewrite (structFields_embedded U k f post p1 r1 v d o r2 v2 Hp Ha E2) in E.
  destruct r2 as [[eps erq]| | |]; try done.
  pose proof (structProperties_visited U _ _ _ _ _ _ _ E2) as ->.
  exists eps, erq. split; [done|].
  apply fieldLoop_required_grows in E as [more ->].
  intros name Hn. rewrite !elem_of_app. tauto.
Qed.


End FieldLoop.

(** ** Termination *)

Section Termination.

Variable U : reflect.Type_ -> reflect.rtype.
Variable opts : Options.
Hypothesis pointers_end : well_founded (points_to U).
Hypothesis embedding_ends : well_founded (embeds U).

Lemma deref_settles t :
  exists fuel r, r <> OutOfFuel /\ forall k, (fuel <= k)%nat -> deref U k t = r.
Proof.
  induction (pointers_end t) as [t _ IH].
  destruct (decide (reflect.kind (U t) = reflect.Pointer)) as [Hk|Hk].
  - destruct (reflect.elem (U t)) as [e|] eqn:He.
    + destruct (IH e (conj Hk He)) as (fuel & r & Hr & Hs).
      exists (S fuel), r. split; [done|]. intros k Hle.
      spend k. simpl. rewrite Hk, He. apply Hs. lia.
    + exists 1%nat, Panic. split; [done|]. intros k Hle.
      spend k. simpl. by rewrite Hk, He.
  - exists 1%nat, (Ok t). split; [done|]. intros k Hle.
    spend k. by apply deref_non_pointer.
Qed.

Section AtDepth.

Variable depth : Z.
Hypothesis JsonTypeOf_settles_here :
  forall t v, settles (fun k => JsonTypeOf U k t v depth opts).

Lemma structFields_settle fs :
  (forall f, f ∈ fs -> reflect.PkgPath f = "" -> reflect.Anonymous f = true ->
     forall v, settles (fun k => structProperties U k (reflect.Typ f) v depth opts)) ->
  forall props required v,
    settles (fun k => structFields U k fs props required v depth opts).
Proof.
  induction fs as [|f fs IH]; intros Hemb props required v.
  - exists O, (Ok (props, required)), v. split; [done|]. intros k _.
    apply structFields_nil.
  - assert (forall p r v0, settles (fun k => structFields U k fs p r v0 depth opts))
      as IH' by (apply IH; intros g Hg; apply Hemb; by right).
    destruct (decide (reflect.PkgPath f = "")) as [Hp|Hp];
      [|destruct (IH' props required v) as (fuel & r & v' & Hr & Hs);
        exists fuel, r, v'; split; [done|]; intros k Hle;
        rewrite structFields_unexported by done; by apply Hs].
    destruct (reflect.Anonymous f) eqn:Ha.
    + destruct (Hemb f ltac:(by left) Hp Ha v) as (fuel1 & r1 & v1 & Hr1 & Hs1).
      destruct r1 as [[eps erq]| | |]; try done.
      * destruct (IH' (eps ∪ props) (required ++ erq) v1)
          as (fuel2 & r2 & v2 & Hr2 & Hs2).
        exists (fuel1 `max` fuel2)%nat, r2, v2. split; [done|]. intros k Hle.
        rewrite (structFields_embedded U k f fs props required v depth opts
                   (Ok (eps, erq)) v1 Hp Ha) by (apply Hs1; lia).
        apply Hs2. lia.
      * exists fuel1, (Err e), v1. split; [done|]. intros k Hle.
        by rewrite (structFields_embedded U k f fs props required v depth opts
                      (Err e) v1 Hp Ha) by (by apply Hs1).
      * exists fuel1, Panic, v1. split; [done|]. intros k Hle.
        by rewrite (structFields_embedded U k f fs props required v depth opts
                      Panic v1 Hp Ha) by (by apply Hs1).
    + destruct (decide (reflect.Tag f = "-")) as [Ht|Ht];
        [destruct (IH' props required v) as (fuel & r & v' & Hr & Hs);
         exists fuel, r, v'; split; [done|]; intros k Hle;
         rewrite structFields_skipped by done; by apply Hs|].
      destruct (JsonTypeOf_settles_here (reflect.Typ f) v)
        as (fuel1 & r1 & v1 & Hr1 & Hs1).
      destruct r1 as [s| | |]; try done.
      * destruct (parseJSONTag (reflect.Name f) (reflect.Tag f))
          as [fieldName isOptional] eqn:Etag.
        destruct (IH' (<[fieldName := fieldProperty isOptional s]> props)
                      (required ++ [fieldName]) v1) as (fuel2 & r2 & v2 & Hr2 & Hs2).
        exists (fuel1 `max` fuel2)%nat, r2, v2. split; [done|]. intros k Hle.
        rewrite (structFields_named U k f fs props required v depth opts
                   (Ok s) v1 Hp Ha Ht) by (apply Hs1; lia).
        rewrite Etag. apply Hs2. lia.
      * exists fuel1, (Err e), v1. split; [done|]. intros k Hle.
        by rewrite (structFields_named U k f fs props required v depth opts
                      (Err e) v1 Hp Ha Ht) by (by apply Hs1).
      * exists fuel1, Panic, v1. split; [done|]. intros k Hle.
        by rewrite (structFields_named U k f fs props required v depth opts
                      Panic v1 Hp Ha Ht) by (by apply Hs1).
Qed.

Lemma structProperties_settles t :
  forall v, settles (fun k => structProperties U k t v depth opts).
Proof.
  induction (embedding_ends t) as [t _ IH]. intros v.
  destruct (decide (reflect.kind (U t) = reflect.Struct)) as [Hk|Hk].
  - destruct (structFields_settle (reflect.fields (U t))) with (props := (∅ : gmap string value))
      (required := ([] : list string)) (v := v) as (fuel & r & v' & Hr & Hs).
    { intros f Hin Hp Ha v0.
      destruct (decide (reflect.kind (U (reflect.Typ f)) = reflect.Struct)) as [Hkf|Hkf].
      - apply IH. split; [done|]. split; [done|]. by exists f.
      - exists 1%nat, Panic, v0. split; [done|]. intros k Hle.
        spend k. by apply structProperties_not_struct. }
    exists (S fuel), r, v'. split; [done|]. intros k Hle.
    spend k. rewrite structProperties_S by done. apply Hs. lia.
  - exists 1%nat, Panic, v. split; [done|]. intros k Hle.
    spend k. by apply structProperties_not_struct.
Qed.

End AtDepth.

Lemma deref_Ok_non_pointer k t t1 :
  deref U k t = Ok t1 -> reflect.kind (U t1) <> reflect.Pointer.
Proof.
  revert t. induction k as [|k IH]; intros t E; [done|]. simpl in E.
  destruct (reflect.kind (U t)) eqn:Hk; try (simplify_eq; congruence).
  destruct (reflect.elem (U t)); [by eapply IH|done].
Qed.

(** [JsonTypeOf] sees its argument only through [deref]. *)
Lemma JsonTypeOf_resolved k t t1 v d o :
  deref U k t = Ok t1 ->
  JsonTypeOf U (S k) t v d o = JsonTypeOf U (S k) t1 v d o.
Proof.
  intros E. simpl. unfold JsonTypeOf_body.
  destruct (d >? MaxDepth o); [done|]. rewrite E.
  destruct k as [|k]; [done|].
  by rewrite (deref_non_pointer U k t1 (deref_Ok_non_pointer _ _ _ E)).
Qed.

Lemma JsonTypeOf_settles_non_pointer depth t v :
  int_min <= depth -> depth < int_max ->
  (forall t' v', settles (fun k => JsonTypeOf U k t' v' (depth + 1) opts)) ->
  reflect.kind (U t) <> reflect.Pointer ->
  settles (fun k => JsonTypeOf U k t v depth opts).
Proof.
  intros Hlo Hhi Hnext Hk.
  destruct (Z_gt_le_dec depth (MaxDepth opts)) as [Hgt|Hle].
  { exists 1%nat, (Err ErrCircularRef), v. split; [done|]. intros k Hk1.
    spend k. by apply JsonTypeOf_too_deep. }
  pose proof (int_add_small depth Hlo Hhi) as Hadd.
  destruct (decide (reflect.kind (U t) = reflect.Struct)) as [Hs|Hs].
  - destruct (decide (t ∈ v)) as [Hin|Hin].
    + exists 2%nat, (Err ErrCircularRef), v. split; [done|]. intros k Hk2.
      destruct k as [|[|k]]; [lia..|]. rewrite JsonTypeOf_struct by done.
      by rewrite bool_decide_eq_true_2.
    + destruct (structProperties_settles (depth + 1) Hnext t ({[t]} ∪ v))
        as (fuel & r & v' & Hr & Hrun).
      exists (S (S fuel)),
        (match r with
         | Ok (props, required) => Ok (VSchema (objectSchema opts props required))
         | _ => fail_as r
         end), (v' ∖ {[t]}).
      split; [by destruct r as [[ps rq]| | |]|].
      intros k Hk2. destruct k as [|[|k]]; [lia..|].
      rewrite JsonTypeOf_struct by done. rewrite bool_decide_eq_false_2 by done.
      rewrite Hadd, Hrun by lia. by destruct r as [[ps rq]| | |].
  - destruct (decide (reflect.kind (U t) = reflect.Slice \/
                      reflect.kind (U t) = reflect.Array)) as [Ha|Ha].
    + destruct (reflect.elem (U t)) as [e|] eqn:He.
      * destruct (Hnext e v) as (fuel & r & v' & Hr & Hrun).
        exists (S (S fuel)),
          (match r with
           | Ok schema => Ok (VSchema (arraySchema (itemSchema schema)))
           | _ => fail_as r
           end), v'.
        split; [by destruct r|].
        intros k Hk2. destruct k as [|[|k]]; [lia..|].
        destruct k as [|k].
        { assert (fuel = O) as -> by lia. specialize (Hrun O (Nat.le_refl _)).
          simpl in Hrun. congruence. }
        rewrite (JsonTypeOf_sequence U k t e) by done.
        rewrite Hadd, Hrun by lia. by destruct r.
      * exists 2%nat, Panic, v. split; [done|]. intros k Hk2.
        destruct k as [|[|k]]; [lia..|]. rewrite JsonTypeOf_leaf by done.
        unfold kindSwitch. simpl. unfold parseArrayItemType_body. rewrite He.
        by destruct Ha as [-> | ->].
    + assert (exists r, r <> OutOfFuel /\ forall pa sp,
                 kindSwitch U pa sp t v depth opts = (r, v)) as (r & Hr & Hsw).
      { unfold kindSwitch. destruct (reflect.kind (U t));
          try (eexists; split; [|reflexivity]; done); exfalso; tauto. }
      exists 2%nat, r, v. split; [done|]. intros k Hk2.
      destruct k as [|[|k]]; [lia..|]. rewrite JsonTypeOf_leaf by done. apply Hsw.
Qed.

Lemma JsonTypeOf_settles_step depth :
  int_min <= depth -> depth < int_max ->
  (forall t v, settles (fun k => JsonTypeOf U k t v (depth + 1) opts)) ->
  forall t v, settles (fun k => JsonTypeOf U k t v depth opts).
Proof.
  intros Hlo Hhi Hnext t v.
  destruct (Z_gt_le_dec depth (MaxDepth opts)) as [Hgt|Hle].
  { exists 1%nat, (Err ErrCircularRef), v. split; [done|]. intros k Hk1.
    spend k. by apply JsonTypeOf_too_deep. }
  destruct (deref_settles t) as (fuel0 & r0 & Hr0 & Hd).
  destruct r0 as [t1|e| |]; [| | |done].
  - pose proof (deref_Ok_non_pointer _ _ _ (Hd fuel0 (Nat.le_refl _))) as Hk1.
    destruct (JsonTypeOf_settles_non_pointer depth t1 v Hlo Hhi Hnext Hk1)
      as (fuel & r & v' & Hr & Hrun).
    exists (S (fuel0 `max` fuel))%nat, r, v'. split; [done|]. intros k Hk.
    spend k.
    rewrite (JsonTypeOf_resolved k t t1) by (apply Hd; lia). apply Hrun. lia.
  - exists (S fuel0), (Err e), v. split; [done|]. intros k Hk.
    spend k. simpl. unfold JsonTypeOf_body.
    destruct (Z.gtb_spec depth (MaxDepth opts)); [lia|]. by rewrite Hd by lia.
  - exists (S fuel0), Panic, v. split; [done|]. intros k Hk.
    spend k. simpl. unfold JsonTypeOf_body.
    destruct (Z.gtb_spec depth (MaxDepth opts)); [lia|]. by rewrite Hd by lia.
Qed.

Lemma JsonTypeOf_settles_all :
  MaxDepth opts < int_max ->
  forall (n : nat) depth,
    int_min <= depth -> MaxDepth opts + 1 - depth <= Z.of_nat n ->
    forall t v, settles (fun k => JsonTypeOf U k t v depth opts).
Proof.
  intros Hmax. induction n as [|n IH]; intros depth Hlo Hn t v.
  - exists 1%nat, (Err ErrCircularRef), v. split; [done|]. intros k Hk1.
    spend k. apply JsonTypeOf_too_deep. lia.
  - destruct (Z_gt_le_dec depth (MaxDepth opts)) as [Hgt|Hle].
    { exists 1%nat, (Err ErrCircularRef), v. split; [done|]. intros k Hk1.
      spend k. by apply JsonTypeOf_too_deep. }
    apply JsonTypeOf_settles_step; [done|lia|].
    apply IH; lia.
Qed.

End Termination.

(** ** Self reference *)

Section SelfReference.

Variable U : reflect.Type_ -> reflect.rtype.

Lemma deref_deterministic n m t a b :
  deref U n t = Ok a -> deref U m t = Ok b -> a = b.
Proof.
  intros Ea Eb.
  pose proof (deref_fuel U n (n `max` m) t _ Ea ltac:(done) ltac:(lia)) as Ha.
  pose proof (deref_fuel U m (n `max` m) t _ Eb ltac:(done) ltac:(lia)) as Hb.
  congruence.
Qed.

(** A type that resolves to a struct in progress does not convert. *)
Lemma JsonTypeOf_in_progress n k x t v d o s v' :
  deref U n x = Ok t -> reflect.kind (U t) = reflect.Struct -> t ∈ v ->
  JsonTypeOf U k x v d o <> (Ok s, v').
Proof.
  intros Hd Hk Hin E. destruct k as [|k]; [done|].
  simpl in E. unfold JsonTypeOf_body in E.
  destruct (d >? MaxDepth o); [done|].
  destruct (deref U k x) as [t1| | |] eqn:E1; try done.
  rewrite (deref_deterministic _ _ _ _ _ E1 Hd), Hk in E.
  by rewrite bool_decide_eq_true_2 in E.
Qed.

(** A struct with a named field that resolves to the struct does not
    convert, whatever the other fields are. *)
Lemma self_reference_never_converts n k t pre f post v d o s v' :
  reflect.kind (U t) = reflect.Struct ->
  reflect.fields (U t) = pre ++ f :: post ->
  reflect.PkgPath f = "" -> reflect.Anonymous f = false -> reflect.Tag f <> "-" ->
  deref U n (reflect.Typ f) = Ok t ->
  JsonTypeOf U k t v d o <> (Ok s, v').
Proof.
  intros Hk Hf Hp Ha Ht Hd E.
  destruct k as [|[|k]]; [done| |].
  { simpl in E. unfold JsonTypeOf_body in E. by destruct (d >? MaxDepth o). }
  destruct (Z_gt_le_dec d (MaxDepth o)) as [Hgt|Hle];
    [by rewrite JsonTypeOf_too_deep in E|].
  rewrite JsonTypeOf_struct in E by done.
  case_bool_decide; [done|].
  rewrite structProperties_S, Hf, structFields_app in E by done.
  destruct (structFields U k pre ∅ [] ({[t]} ∪ v) (int_add d 1) o)
    as [[[p1 r1]| | |] v1] eqn:E1; try done.
  pose proof (structFields_visited U _ _ _ _ _ _ _ _ _ E1) as ->.
  destruct (JsonTypeOf U k (reflect.Typ f) ({[t]} ∪ v) (int_add d 1) o)
    as [r2 v2] eqn:E2.
  rewrite (structFields_named U k f post p1 r1 _ _ _ r2 v2 Hp Ha Ht E2) in E.
  destruct r2 as [s2| | |]; try done.
  apply (JsonTypeOf_in_progress n k (reflect.Typ f) t ({[t]} ∪ v) (int_add d 1) o s2 v2);
    [done|done|set_solver|done].
Qed.

End SelfReference.

(** ** The order of [required] *)

Section Order.

Variable U : reflect.Type_ -> reflect.rtype.

Lemma contributes_hidden k v d o f :
  visible f = false -> contributes U k v d o f = [].
Proof. intros H. unfold contributes. by rewrite H. Qed.

Lemma structFields_emitted k fs props required v d o ps rq v' :
  structFields U k fs props required v d o = (Ok (ps, rq), v') ->
  rq = required ++ emitted_names U k v d o fs /\
  forall name, name ∉ emitted_names U k v d o fs -> ps !! name = props !! name.
Proof.
  revert props required. induction fs as [|f fs IH]; intros props required E.
  - rewrite structFields_nil in E. simplify_eq. by rewrite app_nil_r.
  - unfold emitted_names. simpl. fold (emitted_names U k v d o fs).
    destruct (decide (reflect.PkgPath f = "")) as [Hp|Hp].
    2:{ rewrite structFields_unexported in E by done.
        rewrite contributes_hidden; [by apply IH|].
        unfold visible. by apply String.eqb_neq in Hp as ->. }
    destruct (reflect.Anonymous f) eqn:Ha.
    + destruct (structProperties U k (reflect.Typ f) v d o) as [r1 v1] eqn:E1.
      rewrite (structFields_embedded U k f fs _ _ _ _ _ r1 v1 Hp Ha E1) in E.
      destruct r1 as [[ep er]| | |]; try done.
      pose proof (structProperties_visited U _ _ _ _ _ _ _ E1) as ->.
      unfold contributes, visible. rewrite Hp, Ha, E1. simpl.
      destruct (IH _ _ E) as [-> Hkeep]. split; [by rewrite app_assoc|].
      intros name Hn. rewrite elem_of_app in Hn.
      rewrite Hkeep by tauto. apply lookup_union_r.
      apply eq_None_not_Some.
      rewrite <- (structProperties_same_names U _ _ _ _ _ _ _ _ E1 name). tauto.
    + destruct (decide (reflect.Tag f = "-")) as [Ht|Ht].
      { rewrite structFields_skipped in E by done.
        rewrite contributes_hidden; [by apply IH|].
        unfold visible. by rewrite Hp, Ha, Ht. }
      destruct (JsonTypeOf U k (reflect.Typ f) v d o) as [r1 v1] eqn:E1.
      rewrite (structFields_named U k f fs _ _ _ _ _ r1 v1 Hp Ha Ht E1) in E.
      destruct r1 as [s| | |]; try done.
      pose proof (JsonTypeOf_visited U _ _ _ _ _ _ _ E1) as ->.
      unfold contributes, visible. rewrite Hp, Ha. simpl.
      apply String.eqb_neq in Ht as ->. simpl.
      destruct (parseJSONTag _ _) as [fieldName isOptional]. simpl.
      destruct (IH _ _ E) as [-> Hkeep]. split; [by rewrite <- app_assoc|].
      intros name Hn. rewrite elem_of_cons in Hn.
      rewrite Hkeep by tauto. apply lookup_insert_ne. naive_solver.
Qed.

End Order.

(** ** Fields that convert on their own *)

Section Siblings.

Variable U : reflect.Type_ -> reflect.rtype.

(** The loop succeeds when each field it visits converts from the path set
    the loop starts with: no field is in the way of a later one. *)
Lemma structFields_all_convert k fs v d o :
  (forall f, f ∈ fs ->
     reflect.PkgPath f = "" -> reflect.Anonymous f = false -> reflect.Tag f <> "-" ->
     exists s v1, JsonTypeOf U k (reflect.Typ f) v d o = (Ok s, v1)) ->
  (forall f, f ∈ fs ->
     reflect.PkgPath f = "" -> reflect.Anonymous f = true ->
     exists eps erq v1,
       structProperties U k (reflect.Typ f) v d o = (Ok (eps, erq), v1)) ->
  forall props required, exists ps rq,
    structFields U k fs props required v d o = (Ok (ps, rq), v).
Proof.
  induction fs as [|f fs IH]; intros Hnamed Hemb props required.
  - exists props, required. apply structFields_nil.
  - assert (forall p r, exists ps rq,
               structFields U k fs p r v d o = (Ok (ps, rq), v)) as IH'.
    { apply IH.
      - intros g Hg. apply Hnamed. by right.
      - intros g Hg. apply Hemb. by right. }
    destruct (decide (reflect.PkgPath f = "")) as [Hp|Hp].
    2:{ rewrite structFields_unexported by done. apply IH'. }
    destruct (reflect.Anonymous f) eqn:Ha.
    + destruct (Hemb f ltac:(by left) Hp Ha) as (eps & erq & v1 & E1).
      pose proof (structProperties_visited U _ _ _ _ _ _ _ E1) as ->.
      rewrite (structFields_embedded U k f fs _ _ _ _ _ _ _ Hp Ha E1). apply IH'.
    + destruct (decide (reflect.Tag f = "-")) as [Ht|Ht].
      { rewrite structFields_skipped by done. apply IH'. }
      destruct (Hnamed f ltac:(by left) Hp Ha Ht) as (s & v1 & E1).
      pose proof (JsonTypeOf_visited U _ _ _ _ _ _ _ E1) as ->.
      rewrite (structFields_named U k f fs _ _ _ _ _ _ _ Hp Ha Ht E1).
      destruct (parseJSONTag _ _) as [fieldName isOptional]. apply IH'.
Qed.

End Siblings.

(** ** The claims *)

(** C1.  In a struct that converts, a named field that is not skipped gets
    its computed schema [s] shaped by optionality and stored under its
    emitted name: [{"type": [T, "null"]}] for an optional bare name [T],
    [{"anyOf": [S, {"type": "null"}]}] for an optional schema [S],
    [{"type": T}] and [S] unchanged otherwise; the name is appended to
    [required] whether the field is optional or not, and is in the
    ["required"] entry of the record's schema. *)
Theorem optional_field_null_union (U : reflect.Type_ -> reflect.rtype) (fuel : nat)
    (t : reflect.Type_) (visited : Visited) (depth : Z) (opts : Options)
    (pre post : list reflect.StructField) (f : reflect.StructField)
    (ps : gmap string value) (rq : list string) (visited' : Visited) :
  reflect.kind (U t) = reflect.Struct ->
  reflect.fields (U t) = pre ++ f :: post ->
  reflect.PkgPath f = "" -> reflect.Anonymous f = false -> reflect.Tag f <> "-" ->
  structProperties U (S fuel) t visited depth opts = (Ok (ps, rq), visited') ->
  let name := (parseJSONTag (reflect.Name f) (reflect.Tag f)).1 in
  let optional := (parseJSONTag (reflect.Name f) (reflect.Tag f)).2 in
  exists (s emitted : value) (ps1 : gmap string value) (rq1 : list string),
    JsonTypeOf U fuel (reflect.Typ f) visited depth opts = (Ok s, visited) /\
    structFields U fuel pre ∅ [] visited depth opts = (Ok (ps1, rq1), visited) /\
    structFields U fuel post (<[name := emitted]> ps1) (rq1 ++ [name])
                 visited depth opts = (Ok (ps, rq), visited') /\
    ((exists T, s = VString T /\
                emitted = VSchema {[ "type" := if optional then VStrings [T; "null"]
                                                else VString T ]}) \/
     (exists S, s = VSchema S /\
                emitted = if optional
                          then VSchema {[ "anyOf" :=
                                 VSchemas [S; {[ "type" := VString "null" ]}] ]}
                          else VSchema S)) /\
    (post = [] -> ps !! name = Some emitted) /\
    name ∈ rq /\
    objectSchema opts ps rq !! "required" = Some (VStrings rq).
Proof.
  intros Hk Hf Hp Ha Ht E name optional.
  rewrite structProperties_S, Hf, structFields_app in E by done.
  destruct (structFields U fuel pre ∅ [] visited depth opts)
    as [[[ps1 rq1]| | |] v1] eqn:E1; try done.
  pose proof (structFields_visited U _ _ _ _ _ _ _ _ _ E1) as ->.
  destruct (JsonTypeOf U fuel (reflect.Typ f) visited depth opts) as [r2 v2] eqn:E2.
  pose proof (JsonTypeOf_visited U _ _ _ _ _ _ _ E2) as ->.
  rewrite (structFields_named U fuel f post ps1 rq1 visited depth opts r2 visited
             Hp Ha Ht E2) in E.
  destruct r2 as [s| | |]; try done.
  subst name optional.
  destruct (parseJSONTag (reflect.Name f) (reflect.Tag f)) as [name optional]. simpl.
  exists s, (fieldProperty optional s), ps1, rq1.
  assert (name ∈ rq) as Hin.
  { apply fieldLoop_required_grows in E as [more ->].
    rewrite !elem_of_app, list_elem_of_singleton. tauto. }
  repeat split; try done.
  - destruct (JsonTypeOf_Ok_shape U _ _ _ _ _ _ _ E2) as [H|[m ->]].
    + assert (exists n, s = VString n) as [n ->].
      { repeat (apply elem_of_cons in H as [->|H]; [eauto|]). by apply elem_of_nil in H. }
      left. exists n. split; [done|]. by destruct optional.
    + right. exists m. split; [done|]. by destruct optional.
  - intros ->. rewrite structFields_nil in E. simplify_eq. apply lookup_insert_eq.
  - destruct rq as [|n rq]; [by apply elem_of_nil in Hin|]. apply lookup_insert_eq.
Qed.

Lemma optional_field_null_union_witness :
  let ps : gmap string value :=
    <["city" := VSchema {[ "type" := VString "string" ]}]>
    (<["country" := VSchema {[ "type" := VString "string" ]}]>
    (<["postalCode" := VSchema {[ "type" := VStrings ["string"; "null"] ]}]> ∅)) in
  let rq := ["city"; "country"; "postalCode"] in
  structProperties address_types 3 "Address" ∅ 1 DefaultOptions = (Ok (ps, rq), ∅) /\
  ps !! "postalCode" = Some (VSchema {[ "type" := VStrings ["string"; "null"] ]}) /\
  "postalCode" ∈ rq.
Proof.
  intros ps rq.
  assert (structProperties address_types 3 "Address" ∅ 1 DefaultOptions =
          (Ok (ps, rq), ∅)) as E by (vm_compute; reflexivity).
  split; [exact E|].
  destruct (optional_field_null_union address_types 2 "Address" ∅ 1 DefaultOptions
              [exported "City" "string" "city"; exported "Country" "string" "country"]
              [] (exported "PostalCode" "string" "postalCode,omitempty") ps rq ∅
              eq_refl eq_refl eq_refl eq_refl ltac:(discriminate) E)
    as (s & emitted & ps1 & rq1 & Hs & _ & _ & Hshape & Hlast & Hin & _).
  split; [|exact Hin].
  pose proof (Hlast eq_refl) as Hl.
  change (ps !! "postalCode" = Some emitted) in Hl. rewrite Hl.
  destruct Hshape as [(T & -> & ->)|(S & -> & _)].
  - vm_compute in Hs. by injection Hs as <-.
  - vm_compute in Hs. discriminate Hs.
Defined.

(** C2, as the code has it.  The [required] list of a converted struct and
    the keys of its [properties] are the same set of names: it holds the
    emitted name of every named field that is not skipped, optional or not,
    and every name an embedded struct contributes, and nothing that is not a
    property; it is the ["required"] entry of the schema whenever it is not
    empty.  The list itself is the concatenation, in declaration order, of
    one entry for each named field that is not skipped and of the [required]
    list of each embedded struct: one entry per emitting field, so a name
    that two fields emit is listed twice. *)
Theorem required_matches_properties (U : reflect.Type_ -> reflect.rtype) (fuel : nat)
    (t : reflect.Type_) (visited : Visited) (depth : Z) (opts : Options)
    (ps : gmap string value) (rq : list string) (visited' : Visited) :
  structProperties U (S fuel) t visited depth opts = (Ok (ps, rq), visited') ->
  (forall name, name ∈ rq <-> is_Some (ps !! name)) /\
  rq = emitted_names U fuel visited depth opts (reflect.fields (U t)) /\
  (forall f, f ∈ reflect.fields (U t) ->
     reflect.PkgPath f = "" -> reflect.Anonymous f = false -> reflect.Tag f <> "-" ->
     (parseJSONTag (reflect.Name f) (reflect.Tag f)).1 ∈ rq) /\
  (forall f, f ∈ reflect.fields (U t) ->
     reflect.PkgPath f = "" -> reflect.Anonymous f = true ->
     exists eps erq,
       structProperties U fuel (reflect.Typ f) visited depth opts =
         (Ok (eps, erq), visited) /\
       forall name, name ∈ erq -> name ∈ rq) /\
  (rq <> [] -> objectSchema opts ps rq !! "required" = Some (VStrings rq)) /\
  (rq = [] -> objectSchema opts ps rq !! "required" = None /\ ps = ∅).
Proof.
  intros E. pose proof (structProperties_same_names U _ _ _ _ _ _ _ _ E) as Hsame.
  split; [exact Hsame|].
  assert (reflect.kind (U t) = reflect.Struct) as Hk.
  { simpl in E. unfold structProperties_body in E.
    by destruct (reflect.kind (U t)). }
  rewrite structProperties_S in E by done.
  split; [|split; [|split; [|split]]].
  - by destruct (structFields_emitted U _ _ _ _ _ _ _ _ _ _ E) as [-> _].
  - intros f Hin Hp Ha Ht. by eapply structFields_named_required.
  - intros f Hin Hp Ha. by eapply structFields_embedded_required.
  - intros Hne. destruct rq; [done|]. apply lookup_insert_eq.
  - intros ->. split; [done|].
    apply map_empty. intros name. apply eq_None_not_Some. rewrite <- (Hsame name).
    by intros ?%elem_of_nil.
Qed.

Lemma required_matches_properties_witness :
  exists ps rq,
    structProperties fixtures 4 "ExtendedInfo" ∅ 1 DefaultOptions = (Ok (ps, rq), ∅) /\
    (forall name, name ∈ rq <-> is_Some (ps !! name)) /\
    rq = emitted_names fixtures 3 ∅ 1 DefaultOptions
           (reflect.fields (fixtures "ExtendedInfo")).
Proof.
  assert (structProperties fixtures 4 "ExtendedInfo" ∅ 1 DefaultOptions =
          (Ok (<["content" := VSchema {[ "type" := VStrings ["string"; "null"] ]}]>
               (<["title" := VSchema {[ "type" := VString "string" ]}]>
               (<["id" := VSchema {[ "type" := VString "integer" ]}]>
               (<["created_at" := VSchema {[ "type" := VString "string" ]}]> ∅))),
               ["id"; "created_at"; "title"; "content"]), ∅)) as E
    by (vm_compute; reflexivity).
  eexists _, _. split; [exact E|].
  destruct (required_matches_properties fixtures 3 "ExtendedInfo" ∅ 1 DefaultOptions
              _ _ ∅ E) as (Hsame & Horder & _).
  exact (conj Hsame Horder).
Defined.

(** C2, as stated, fails: [Derived] embeds [Base], whose field emits ["id"],
    and has a later field that emits ["id"] too; the conversion succeeds with
    one property and the name twice in [required]. *)
Lemma required_repeats_name :
  JsonTypeOf colliding 5 "Derived" ∅ 0 DefaultOptions =
    (Ok (VSchema (objectSchema DefaultOptions
                    {[ "id" := VSchema {[ "type" := VString "string" ]} ]}
                    ["id"; "id"])), ∅) /\
  ~ NoDup ["id"; "id"].
Proof.
  split; [vm_compute; reflexivity|].
  intros H. apply NoDup_cons in H as [H _]. apply H. by left.
Qed.




(** C4.  For a resolved (non-pointer) type within the depth limit the
    dispatch returns ["string"] for the text kind, ["boolean"] for the
    boolean kind, ["integer"] for every signed and unsigned integer width,
    ["number"] for both float widths, and fails with [ErrUnsupportedType] for
    every kind outside strings, booleans, integers, floats, sequences and
    structs (map, chan, func, interface, complex, ...), at top level and
    under any number of array levels that fit the depth limit. *)
Theorem kind_dispatch (U : reflect.Type_ -> reflect.rtype) (fuel : nat)
    (t : reflect.Type_) (visited : Visited) (depth : Z) (opts : Options) :
  reflect.kind (U t) <> reflect.Pointer ->
  depth <= MaxDepth opts ->
  let k := reflect.kind (U t) in
  let r := JsonTypeOf U (S (S fuel)) t visited depth opts in
  (k = reflect.String -> r = (Ok (VString "string"), visited)) /\
  (k = reflect.Bool -> r = (Ok (VString "boolean"), visited)) /\
  (k ∈ integer_family -> r = (Ok (VString "integer"), visited)) /\
  (k ∈ float_family -> r = (Ok (VString "number"), visited)) /\
  (k ∉ supported_kinds ->
   r = (Err ErrUnsupportedType, visited) /\
   forall (n : nat) (outer : reflect.Type_) (d : Z),
     array_nest U n outer t ->
     int_min <= d -> d + Z.of_nat n <= MaxDepth opts -> MaxDepth opts <= int_max ->
     JsonTypeOf U (2 * n + 2 + fuel) outer visited d opts =
     (Err ErrUnsupportedType, visited)).
Proof.
  intros Hp Hd k r. subst r.
  assert (k ∉ supported_kinds ->
          JsonTypeOf U (S (S fuel)) t visited depth opts =
          (Err ErrUnsupportedType, visited)) as Hun.
  { intros Hk. rewrite JsonTypeOf_leaf; [|done| |lia].
    - unfold kindSwitch. subst k.
      destruct (reflect.kind (U t)); try done;
        exfalso; apply Hk; unfold supported_kinds, integer_family, float_family;
        set_solver.
    - intros E. apply Hk. subst k. rewrite E. unfold supported_kinds. set_solver. }
  split; [|split; [|split; [|split]]].
  - intros E. subst k. rewrite JsonTypeOf_leaf; [|congruence..|lia].
    unfold kindSwitch. by rewrite E.
  - intros E. subst k. rewrite JsonTypeOf_leaf; [|congruence..|lia].
    unfold kindSwitch. by rewrite E.
  - intros E. subst k. unfold integer_family in E.
    rewrite JsonTypeOf_leaf; [| | |lia];
      [unfold kindSwitch|intros E'; rewrite E' in E; set_solver..].
    destruct (reflect.kind (U t)); try done; set_solver.
  - intros E. subst k. unfold float_family in E.
    rewrite JsonTypeOf_leaf; [| | |lia];
      [unfold kindSwitch|intros E'; rewrite E' in E; set_solver..].
    destruct (reflect.kind (U t)); try done; set_solver.
  - intros Hk. split; [by apply Hun|].
    intros n outer d Hn Hlo Hdn Hmax.
    by apply (unsupported_nested U opts visited t Hp Hk Hmax n outer d fuel).
Qed.

Lemma kind_dispatch_witness :
  JsonTypeOf nested_records 2 "int" ∅ 0 DefaultOptions = (Ok (VString "integer"), ∅) /\
  JsonTypeOf nested_records 2 "map[string]int" ∅ 0 DefaultOptions =
    (Err ErrUnsupportedType, ∅) /\
  JsonTypeOf nested_records 4 "[]map[string]int" ∅ 0 DefaultOptions =
    (Err ErrUnsupportedType, ∅).
Proof.
  split.
  - apply (kind_dispatch nested_records 0 "int" ∅ 0 DefaultOptions);
      [discriminate | simpl; lia | ].
    by apply (bool_decide_unpack _).
  - destruct (kind_dispatch nested_records 0 "map[string]int" ∅ 0 DefaultOptions)
      as (_ & _ & _ & _ & H); [discriminate | simpl; lia | ].
    destruct H as [H1 H2]; [by apply (bool_decide_unpack _) | ].
    split; [exact H1 | ].
    apply (H2 1%nat "[]map[string]int" 0).
    + simpl. split; [by left | by exists "map[string]int"].
    + unfold int_min. lia.
    + simpl. lia.
    + unfold int_max. simpl. lia.
Defined.

(** C5.  An exported embedded struct field is flattened into the record that
    embeds it: [structProperties] runs on the embedded type with the very
    [depth] of the enclosing loop, its properties are written over the
    properties collected so far (on a common key the embedded value wins,
    other keys keep their value), its required names are appended to the
    required list, and a named field that follows writes its own property
    over an embedded one of the same name. *)
Theorem embedded_fields_merged (U : reflect.Type_ -> reflect.rtype) (fuel : nat)
    (f : reflect.StructField) (rest : list reflect.StructField)
    (props : gmap string value) (required : list string)
    (visited : Visited) (depth : Z) (opts : Options)
    (eps : gmap string value) (erq : list string) (visited' : Visited) :
  reflect.PkgPath f = "" -> reflect.Anonymous f = true ->
  structProperties U fuel (reflect.Typ f) visited depth opts = (Ok (eps, erq), visited') ->
  (forall t, reflect.kind (U t) = reflect.Struct ->
     structProperties U (S fuel) t visited depth opts =
     structFields U fuel (reflect.fields (U t)) ∅ [] visited depth opts) /\
  structFields U fuel (f :: rest) props required visited depth opts =
    structFields U fuel rest (eps ∪ props) (required ++ erq) visited' depth opts /\
  (forall key x, eps !! key = Some x -> (eps ∪ props) !! key = Some x) /\
  (forall key, eps !! key = None -> (eps ∪ props) !! key = props !! key) /\
  (forall g rest' s visited'',
     rest = g :: rest' ->
     reflect.PkgPath g = "" -> reflect.Anonymous g = false -> reflect.Tag g <> "-" ->
     JsonTypeOf U fuel (reflect.Typ g) visited' depth opts = (Ok s, visited'') ->
     let name := (parseJSONTag (reflect.Name g) (reflect.Tag g)).1 in
     let emitted :=
       fieldProperty (parseJSONTag (reflect.Name g) (reflect.Tag g)).2 s in
     structFields U fuel (f :: rest) props required visited depth opts =
       structFields U fuel rest' (<[name := emitted]> (eps ∪ props))
                    ((required ++ erq) ++ [name]) visited'' depth opts /\
     (<[name := emitted]> (eps ∪ props)) !! name = Some emitted).
Proof.
  intros Hp Ha E.
  assert (structFields U fuel (f :: rest) props required visited depth opts =
          structFields U fuel rest (eps ∪ props) (required ++ erq) visited' depth opts)
    as Hstep
    by exact (structFields_embedded U fuel f rest props required visited depth opts
                (Ok (eps, erq)) visited' Hp Ha E).
  split; [intros t Hk; by apply structProperties_S|].
  split; [exact Hstep|].
  split; [intros key x Hx; by apply lookup_union_Some_l|].
  split; [intros key Hx; by apply lookup_union_r|].
  intros g rest' s visited'' -> Hgp Hga Hgt Eg name emitted.
  split; [|apply lookup_insert_eq].
  rewrite Hstep.
  rewrite (structFields_named U fuel g rest' _ _ visited' depth opts (Ok s) visited''
             Hgp Hga Hgt Eg).
  subst name emitted. by destruct (parseJSONTag _ _).
Qed.

Lemma embedded_fields_merged_witness :
  structProperties colliding 3 "Base" ∅ 1 DefaultOptions =
    (Ok ({[ "id" := VSchema {[ "type" := VString "integer" ]} ]}, ["id"]), ∅) /\
  structFields colliding 3 [embedded "Base"; exported "Ident" "string" "id"]
               ∅ [] ∅ 1 DefaultOptions =
    (Ok ({[ "id" := VSchema {[ "type" := VString "string" ]} ]}, ["id"; "id"]), ∅).
Proof.
  assert (structProperties colliding 3 "Base" ∅ 1 DefaultOptions =
          (Ok ({[ "id" := VSchema {[ "type" := VString "integer" ]} ]}, ["id"]), ∅))
    as E by (vm_compute; reflexivity).
  split; [exact E|].
  destruct (embedded_fields_merged colliding 3 (embedded "Base")
              [exported "Ident" "string" "id"] ∅ [] ∅ 1 DefaultOptions _ _ _
              eq_refl eq_refl E) as (_ & _ & _ & _ & H).
  destruct (H (exported "Ident" "string" "id") [] (VString "string") ∅ eq_refl
              eq_refl eq_refl ltac:(discriminate) ltac:(vm_compute; reflexivity))
    as [H1 _].
  rewrite H1. vm_compute. reflexivity.
Defined.

(** C6, as the code has it.  A struct with a field that the loop visits as
    a named field (exported, not embedded, its tag not ["-"]) and whose type
    resolves, directly or through pointers, to the struct itself never
    converts, and its conversion fails with [ErrCircularRef] when the fields
    declared before that field convert: the struct is still marked in
    progress when the field is converted.  A struct converts when each field
    the loop visits converts on its own from the path set of the struct,
    however many of them have the same struct type: the mark of one
    occurrence is gone when the next is converted.  For two sibling fields of
    one struct type the schema has the schema of that type twice. *)
Theorem self_reference_is_circular (U : reflect.Type_ -> reflect.rtype) (fuel : nat)
    (t : reflect.Type_) (visited : Visited) (depth : Z) (opts : Options) :
  reflect.kind (U t) = reflect.Struct ->
  (forall pre f post ps1 rq1 v1,
     reflect.fields (U t) = pre ++ f :: post ->
     reflect.PkgPath f = "" -> reflect.Anonymous f = false -> reflect.Tag f <> "-" ->
     deref U fuel (reflect.Typ f) = Ok t ->
     structFields U fuel pre ∅ [] ({[ t ]} ∪ visited) (int_add depth 1) opts =
       (Ok (ps1, rq1), v1) ->
     JsonTypeOf U (3 + fuel) t visited depth opts = (Err ErrCircularRef, visited)) /\
  (forall pre f post k s v1,
     reflect.fields (U t) = pre ++ f :: post ->
     reflect.PkgPath f = "" -> reflect.Anonymous f = false -> reflect.Tag f <> "-" ->
     deref U fuel (reflect.Typ f) = Ok t ->
     JsonTypeOf U k t visited depth opts <> (Ok s, v1)) /\
  (forall fa fb q s v1,
     reflect.fields (U t) = [fa; fb] ->
     reflect.PkgPath fa = "" -> reflect.Anonymous fa = false -> reflect.Tag fa <> "-" ->
     reflect.PkgPath fb = "" -> reflect.Anonymous fb = false -> reflect.Tag fb <> "-" ->
     reflect.Typ fa = q -> reflect.Typ fb = q -> reflect.kind (U q) = reflect.Struct ->
     t ∉ visited -> depth <= MaxDepth opts ->
     JsonTypeOf U fuel q ({[ t ]} ∪ visited) (int_add depth 1) opts = (Ok s, v1) ->
     let a := parseJSONTag (reflect.Name fa) (reflect.Tag fa) in
     let b := parseJSONTag (reflect.Name fb) (reflect.Tag fb) in
     JsonTypeOf U (2 + fuel) t visited depth opts =
       (Ok (VSchema (objectSchema opts
                       (<[b.1 := fieldProperty b.2 s]>
                        (<[a.1 := fieldProperty a.2 s]> ∅))
                       [a.1; b.1])), visited)) /\
  (t ∉ visited -> depth <= MaxDepth opts ->
   (forall f, f ∈ reflect.fields (U t) ->
      reflect.PkgPath f = "" -> reflect.Anonymous f = false -> reflect.Tag f <> "-" ->
      exists s v1,
        JsonTypeOf U fuel (reflect.Typ f) ({[ t ]} ∪ visited) (int_add depth 1) opts =
          (Ok s, v1)) ->
   (forall f, f ∈ reflect.fields (U t) ->
      reflect.PkgPath f = "" -> reflect.Anonymous f = true ->
      exists eps erq v1,
        structProperties U fuel (reflect.Typ f) ({[ t ]} ∪ visited) (int_add depth 1) opts =
          (Ok (eps, erq), v1)) ->
   exists ps rq,
     JsonTypeOf U (2 + fuel) t visited depth opts =
       (Ok (VSchema (objectSchema opts ps rq)), visited)).
Proof.
  intros Hk. split; [|split; [|split]].
  - intros pre f post ps1 rq1 v1 Hf Hp Ha Ht Hd Epre.
    change (3 + fuel)%nat with (S (S (S fuel))).
    destruct (Z_gt_le_dec depth (MaxDepth opts)) as [Hgt|Hle];
      [by apply JsonTypeOf_too_deep|].
    rewrite JsonTypeOf_struct by done.
    case_bool_decide as Hin; [done|].
    rewrite structProperties_S, Hf, structFields_app by done.
    pose proof (structFields_visited U _ _ _ _ _ _ _ _ _ Epre) as ->.
    rewrite (structFields_fuel U fuel (S fuel) _ _ _ _ _ _ _ _ Epre) by (done || lia).
    assert (JsonTypeOf U (S fuel) (reflect.Typ f) ({[t]} ∪ visited) (int_add depth 1) opts
            = (Err ErrCircularRef, {[t]} ∪ visited)) as Ef.
    { simpl. unfold JsonTypeOf_body.
      destruct (int_add depth 1 >? MaxDepth opts); [done|].
      rewrite Hd, Hk. rewrite bool_decide_eq_true_2 by set_solver. done. }
    rewrite (structFields_named U (S fuel) f post _ _ _ _ _ _ _ Hp Ha Ht Ef).
    simpl. f_equal. set_solver.
  - intros pre f post k s v1 Hf Hp Ha Ht Hd.
    by eapply self_reference_never_converts.
  - intros fa fb q s v1 Hf Hpa Haa Hta Hpb Hab Htb Hqa Hqb Hkq Hin Hle Eq a b.
    pose proof (JsonTypeOf_visited U _ _ _ _ _ _ _ Eq) as ->.
    destruct fuel as [|fuel]; [simpl in Eq; congruence|].
    change (2 + S fuel)%nat with (S (S (S fuel))).
    rewrite JsonTypeOf_struct by done.
    rewrite bool_decide_eq_false_2 by done.
    rewrite structProperties_S, Hf by done.
    rewrite <- Hqa in Eq.
    rewrite (structFields_named U (S fuel) fa [fb] _ _ _ _ _ _ _ Hpa Haa Hta Eq).
    rewrite Hqa, <- Hqb in Eq.
    subst a b.
    destruct (parseJSONTag (reflect.Name fa) (reflect.Tag fa)) as [na oa].
    rewrite (structFields_named U (S fuel) fb [] _ _ _ _ _ _ _ Hpb Hab Htb Eq).
    destruct (parseJSONTag (reflect.Name fb) (reflect.Tag fb)) as [nb ob].
    rewrite structFields_nil. simpl. f_equal. set_solver.
  - intros Hin Hle Hnamed Hemb.
    destruct (structFields_all_convert U fuel (reflect.fields (U t)) ({[ t ]} ∪ visited)
                (int_add depth 1) opts Hnamed Hemb ∅ []) as (ps & rq & E).
    exists ps, rq. change (2 + fuel)%nat with (S (S fuel)).
    rewrite JsonTypeOf_struct by done.
    rewrite bool_decide_eq_false_2 by done.
    rewrite structProperties_S, E by done. f_equal. set_solver.
Qed.

Lemma self_reference_is_circular_witness :
  JsonTypeOf fixtures 5 "Node" ∅ 0 DefaultOptions = (Err ErrCircularRef, ∅) /\
  JsonTypeOf address_types 6 "Route" ∅ 0 DefaultOptions =
    (Ok (VSchema (objectSchema DefaultOptions
                    (<["to" := address_schema]> (<["from" := address_schema]> ∅))
                    ["from"; "to"])), ∅) /\
  exists ps rq,
    JsonTypeOf self_references 6 "Triangle" ∅ 0 DefaultOptions =
      (Ok (VSchema (objectSchema DefaultOptions ps rq)), ∅).
Proof.
  split; [|split].
  - apply (proj1 (self_reference_is_circular fixtures 2 "Node" ∅ 0 DefaultOptions eq_refl)
             [exported "Value" "string" "value"]
             (exported "Next" "*Node" "next,omitempty") []
             {[ "value" := VSchema {[ "type" := VString "string" ]} ]} ["value"]
             ({[ "Node" ]} ∪ ∅));
      [reflexivity | reflexivity | reflexivity | discriminate | reflexivity
      | vm_compute; reflexivity].
  - apply (proj1 (proj2 (proj2 (self_reference_is_circular address_types 4 "Route" ∅ 0
                                  DefaultOptions eq_refl)))
             (exported "From" "Address" "from") (exported "To" "Address" "to")
             "Address" address_schema ({[ "Route" ]} ∪ ∅));
      [reflexivity | reflexivity | reflexivity | discriminate
      | reflexivity | reflexivity | discriminate
      | reflexivity | reflexivity | reflexivity
      | apply not_elem_of_empty | simpl; lia
      | vm_compute; reflexivity].
  - assert (JsonTypeOf self_references 4 "Point" ({[ "Triangle" ]} ∪ ∅) (int_add 0 1)
              DefaultOptions =
            (Ok (VSchema (objectSchema DefaultOptions
                            {[ "x" := VSchema {[ "type" := VString "integer" ]} ]} ["x"])),
             {[ "Triangle" ]} ∪ ∅)) as E by (vm_compute; reflexivity).
    apply (proj2 (proj2 (proj2 (self_reference_is_circular self_references 4 "Triangle"
                                  ∅ 0 DefaultOptions eq_refl))));
      [apply not_elem_of_empty | simpl; lia | |].
    + intros f Hf _ _ _. simpl in Hf.
      repeat (apply elem_of_cons in Hf as [->|Hf]; [eexists _, _; exact E|]).
      by apply elem_of_nil in Hf.
    + intros f Hf _ Ha. simpl in Hf.
      repeat (apply elem_of_cons in Hf as [->|Hf]; [discriminate Ha|]).
      by apply elem_of_nil in Hf.
Defined.

(** C6, as stated, fails: a struct that refers to itself through a pointer
    fails with [ErrUnsupportedType] when a field declared before the
    reference has an unsupported type, converts when the reference is an
    unexported field or has the tag ["-"], and panics when the reference is
    an embedded pointer. *)
Lemma self_reference_other_outcomes :
  JsonTypeOf self_references 5 "Tagged" ∅ 0 DefaultOptions =
    (Err ErrUnsupportedType, ∅) /\
  JsonTypeOf self_references 5 "Hidden" ∅ 0 DefaultOptions =
    (Ok (VSchema (objectSchema DefaultOptions
                    {[ "value" := VSchema {[ "type" := VString "string" ]} ]}
                    ["value"])), ∅) /\
  JsonTypeOf self_references 5 "Dashed" ∅ 0 DefaultOptions =
    (Ok (VSchema (objectSchema DefaultOptions
                    {[ "value" := VSchema {[ "type" := VString "string" ]} ]}
                    ["value"])), ∅) /\
  JsonTypeOf self_references 5 "Embeds" ∅ 0 DefaultOptions = (Panic, ∅) /\
  deref self_references 5 "*Tagged" = Ok "Tagged" /\
  deref self_references 5 "*Hidden" = Ok "Hidden" /\
  deref self_references 5 "*Dashed" = Ok "Dashed" /\
  deref self_references 5 "*Embeds" = Ok "Embeds".
Proof. repeat split; vm_compute; reflexivity. Qed.

(** C7.  A call with [depth > opts.MaxDepth] fails with [ErrCircularRef]
    before anything else is looked at, whatever the type; so arrays of arrays
    nested deeper than the limit fail with it even over a primitive; with
    [MaxDepth = 0] a record with one named field (a nested record, say) fails
    with it; and a type whose nesting depth fits under [MaxDepth] converts. *)
Theorem depth_limit (U : reflect.Type_ -> reflect.rtype) (fuel : nat)
    (t : reflect.Type_) (visited : Visited) (depth : Z) (opts : Options) :
  (depth > MaxDepth opts ->
   JsonTypeOf U (S fuel) t visited depth opts = (Err ErrCircularRef, visited)) /\
  (forall (n : nat) (inner : reflect.Type_),
     array_nest U n t inner ->
     int_min <= depth -> MaxDepth opts < int_max ->
     depth + Z.of_nat n > MaxDepth opts ->
     JsonTypeOf U (2 * n + 1 + fuel) t visited depth opts =
     (Err ErrCircularRef, visited)) /\
  (forall f : reflect.StructField,
     MaxDepth opts = 0 ->
     reflect.kind (U t) = reflect.Struct -> reflect.fields (U t) = [f] ->
     reflect.PkgPath f = "" -> reflect.Anonymous f = false -> reflect.Tag f <> "-" ->
     JsonTypeOf U (3 + fuel) t ∅ 0 opts = (Err ErrCircularRef, ∅)) /\
  (forall n : nat,
     Fits U visited n t ->
     int_min <= depth -> depth + Z.of_nat n <= MaxDepth opts ->
     MaxDepth opts <= int_max ->
     exists fuel0 s, forall k, (fuel0 <= k)%nat ->
       JsonTypeOf U k t visited depth opts = (Ok s, visited)).
Proof.
  split; [|split; [|split]].
  - apply JsonTypeOf_too_deep.
  - intros n inner Hn Hlo Hmax Hd. by eapply too_deep_arrays.
  - intros f. apply zero_MaxDepth_nested_field.
  - intros n Hfit Hlo Hd Hmax.
    by apply (proj1 (Fits_converts_all U opts Hmax) visited n t Hfit depth).
Qed.

Lemma depth_limit_witness :
  JsonTypeOf nested_records 1 "int" ∅ 51 DefaultOptions = (Err ErrCircularRef, ∅) /\
  JsonTypeOf nested_records 5 "[][]int" ∅ 49 DefaultOptions = (Err ErrCircularRef, ∅) /\
  JsonTypeOf nested_records 3 "Outer" ∅ 0
    {| AllowAdditionalProperty := false; MaxDepth := 0 |} = (Err ErrCircularRef, ∅) /\
  exists fuel0 s, forall k, (fuel0 <= k)%nat ->
    JsonTypeOf nested_records k "Outer" ∅ 0
      {| AllowAdditionalProperty := false; MaxDepth := 2 |} = (Ok s, ∅).
Proof.
  split; [|split; [|split]].
  - apply (proj1 (depth_limit nested_records 0 "int" ∅ 51 DefaultOptions)). simpl. lia.
  - apply (proj1 (proj2 (depth_limit nested_records 0 "[][]int" ∅ 49 DefaultOptions))
             2%nat "int").
    + simpl. split; [by left|]. exists "[]int". split; [done|].
      split; [by left|]. by exists "int".
    + unfold int_min. lia.
    + unfold int_max. simpl. lia.
    + simpl. lia.
  - apply (proj1 (proj2 (proj2 (depth_limit nested_records 0 "Outer" ∅ 0
             {| AllowAdditionalProperty := false; MaxDepth := 0 |})))
             (exported "Inner" "Inner" "inner")); try reflexivity.
    discriminate.
  - apply (proj2 (proj2 (proj2 (depth_limit nested_records 0 "Outer" ∅ 0
             {| AllowAdditionalProperty := false; MaxDepth := 2 |}))) 2%nat).
    + apply Fits_struct; [done | apply not_elem_of_empty | ].
      apply FieldsFit_named; [done | done | discriminate | | apply FieldsFit_nil].
      apply Fits_struct; [done | by apply (bool_decide_unpack _) | ].
      apply FieldsFit_named; [done | done | discriminate | | apply FieldsFit_nil].
      apply Fits_primitive. by apply (bool_decide_unpack _).
    + unfold int_min. lia.
    + simpl. lia.
    + unfold int_max. simpl. lia.
Defined.

(** C8.  Whatever a call of [JsonTypeOf] returns (a schema, an error, a
    panic), it leaves the path set as it found it, because each struct mark
    is removed on every exit; a top-level call, which starts from the empty
    set, ends with the empty set. *)
Theorem path_set_restored (U : reflect.Type_ -> reflect.rtype) (fuel : nat)
    (t : reflect.Type_) (visited : Visited) (depth : Z) (opts : Options) :
  snd (JsonTypeOf U fuel t visited depth opts) = visited /\
  snd (structProperties U fuel t visited depth opts) = visited /\
  snd (JsonTypeOf U fuel t ∅ depth opts) = ∅.
Proof.
  destruct (restores_all U fuel) as (Hj & _ & Hs). repeat split; [apply Hj|apply Hs|apply Hj].
Qed.

(** C9, as the code has it.  When every chain of pointer types ends (and, as
    in every Go program, no struct embeds itself by value) and [MaxDepth] is
    below the largest [int], every call of [JsonTypeOf], [parseArrayItemType]
    and [structProperties] returns, on cyclic type graphs too: each array or
    struct level adds one to [depth], which [MaxDepth] bounds, and embedded
    structs are finitely nested. *)
Theorem conversion_terminates (U : reflect.Type_ -> reflect.rtype) (opts : Options)
    (t : reflect.Type_) (visited : Visited) (depth : Z) :
  well_founded (points_to U) -> well_founded (embeds U) ->
  MaxDepth opts < int_max -> int_min <= depth ->
  settles (fun fuel => JsonTypeOf U fuel t visited depth opts) /\
  settles (fun fuel => parseArrayItemType U fuel t visited depth opts) /\
  settles (fun fuel => structProperties U fuel t visited depth opts).
Proof.
  intros Hptr Hemb Hmax Hlo.
  assert (forall t' v', settles (fun k => JsonTypeOf U k t' v' depth opts)) as Hj.
  { apply (JsonTypeOf_settles_all U opts Hptr Hemb Hmax
             (Z.to_nat (MaxDepth opts + 1 - depth))); [done|lia]. }
  split; [apply Hj|]. split; [|by apply structProperties_settles].
  destruct (reflect.elem (U t)) as [e|] eqn:He.
  - destruct (Hj e visited) as (fuel & r & v' & Hr & Hrun).
    exists (S fuel),
      (match r with Ok schema => Ok (itemSchema schema) | _ => fail_as r end), v'.
    split; [by destruct r|]. intros k Hk. spend k.
    simpl. unfold parseArrayItemType_body. rewrite He, Hrun by lia. by destruct r.
  - exists 1%nat, Panic, visited. split; [done|]. intros k Hk.
    spend k. simpl. unfold parseArrayItemType_body. by rewrite He.
Qed.

Lemma linked_list_kind t :
  reflect.kind (linked_list t) = reflect.Pointer -> t = "*Node".
Proof.
  unfold linked_list, table.
  destruct (String.eqb_spec "string" t); [done|].
  destruct (String.eqb_spec "Node" t); [done|].
  by destruct (String.eqb_spec "*Node" t).
Qed.

Lemma linked_list_pointers_end : well_founded (points_to linked_list).
Proof.
  intros t. constructor. intros e [Hk He].
  apply linked_list_kind in Hk as ->. vm_compute in He. injection He as <-.
  constructor. intros e' [Hk' _]. by apply linked_list_kind in Hk'.
Qed.

Lemma linked_list_embedding_ends : well_founded (embeds linked_list).
Proof.
  intros t. constructor. intros e (Hk & _ & f & Hin & _ & Ha & _). exfalso.
  revert Hk Hin. unfold linked_list, table.
  destruct (String.eqb_spec "string" t); [done|].
  destruct (String.eqb_spec "Node" t);
    [|destruct (String.eqb_spec "*Node" t); done].
  intros _ Hin. simpl in Hin.
  repeat (apply elem_of_cons in Hin as [->|Hin]; [done|]).
  by apply elem_of_nil in Hin.
Qed.

Lemma conversion_terminates_witness :
  settles (fun fuel => JsonTypeOf linked_list fuel "Node" ∅ 0 DefaultOptions).
Proof.
  apply (conversion_terminates linked_list DefaultOptions "Node" ∅ 0
           linked_list_pointers_end linked_list_embedding_ends).
  - unfold int_max. simpl. lia.
  - unfold int_min. lia.
Defined.

(** C9, as stated, fails: on [type P *P] the loop of [deref] never leaves
    the type, so the conversion of a struct with a field of type [P] returns
    for no amount of fuel. *)
Lemma pointer_cycle_never_returns :
  ~ exists fuel,
      (JsonTypeOf pointer_cycle fuel "Holder" ∅ 0 DefaultOptions).1 <> OutOfFuel.
Proof.
  assert (forall k, deref pointer_cycle k "P" = OutOfFuel) as Hd.
  { induction k as [|k IH]; [done|]. simpl. exact IH. }
  assert (forall k v, JsonTypeOf pointer_cycle k "P" v 1 DefaultOptions = (OutOfFuel, v))
    as Hp.
  { intros [|k] v; [done|]. simpl. unfold JsonTypeOf_body. simpl. by rewrite Hd. }
  intros [fuel H]. apply H. destruct fuel as [|[|fuel]]; [done..|].
  rewrite JsonTypeOf_struct by (done || (simpl; lia)).
  rewrite bool_decide_eq_false_2 by apply not_elem_of_empty.
  rewrite structProperties_S by done.
  change (int_add 0 1) with 1.
  rewrite (structFields_named pointer_cycle fuel (exported "Link" "P" "link") [] ∅ []
             _ 1 DefaultOptions OutOfFuel _ eq_refl eq_refl ltac:(discriminate)
             (Hp fuel _)).
  done.
Qed.

(** C10.  A successful [JsonTypeOf] returns one of the four bare primitive
    names or a [Schema], so the two result-shaping switches never take their
    default branch: both produce a [Schema]. *)
Theorem result_is_name_or_schema (U : reflect.Type_ -> reflect.rtype) (fuel : nat)
    (t : reflect.Type_) (visited : Visited) (depth : Z) (opts : Options)
    (s : value) (visited' : Visited) :
  JsonTypeOf U fuel t visited depth opts = (Ok s, visited') ->
  (s ∈ [VString "string"; VString "boolean"; VString "integer"; VString "number"]
   \/ exists m, s = VSchema m) /\
  (exists m, itemSchema s = VSchema m) /\
  (forall isOptional, exists m, fieldProperty isOptional s = VSchema m).
Proof.
  intros E. pose proof (JsonTypeOf_Ok_shape _ _ _ _ _ _ _ _ E) as H.
  split; [exact H|].
  destruct H as [H|[m ->]].
  - assert (exists n, s = VString n) as [n ->].
    { repeat (apply elem_of_cons in H as [->|H]; [eauto|]). by apply elem_of_nil in H. }
    split; [simpl; eauto|]. intros []; simpl; eauto.
  - split; [simpl; eauto|]. intros []; simpl; eauto.
Qed.

Lemma result_is_name_or_schema_witness :
  JsonTypeOf fixtures 4 "BaseInfo" ∅ 0 DefaultOptions =
    (Ok (VSchema (objectSchema DefaultOptions
                    (<["id" := VSchema {[ "type" := VString "integer" ]}]>
                     (<["created_at" := VSchema {[ "type" := VString "string" ]}]> ∅))
                    ["id"; "created_at"])), ∅) /\
  exists m, itemSchema (VSchema (objectSchema DefaultOptions
                    (<["id" := VSchema {[ "type" := VString "integer" ]}]>
                     (<["created_at" := VSchema {[ "type" := VString "string" ]}]> ∅))
                    ["id"; "created_at"])) = VSchema m.
Proof.
  assert (JsonTypeOf fixtures 4 "BaseInfo" ∅ 0 DefaultOptions =
    (Ok (VSchema (objectSchema DefaultOptions
                    (<["id" := VSchema {[ "type" := VString "integer" ]}]>
                     (<["created_at" := VSchema {[ "type" := VString "string" ]}]> ∅))
                    ["id"; "created_at"])), ∅)) as E by (vm_compute; reflexivity).
  split; [exact E|].
  exact (proj1 (proj2 (result_is_name_or_schema fixtures 4 "BaseInfo" ∅ 0 DefaultOptions
                         _ _ E))).
Defined.

(** ** Further properties of the code *)

(** *** [deref] and pointers *)

Section Pointers.

Variable U : reflect.Type_ -> reflect.rtype.

Lemma deref_pointer_chain n t inner k :
  pointer_chain U n t inner -> (n < k)%nat -> deref U k t = Ok inner.
Proof.
  revert t k. induction n as [|n IH]; intros t k Hc Hk.
  - destruct Hc as [-> Hnp]. spend k. by apply deref_non_pointer.
  - destruct Hc as (Hp & e & He & Hc). spend k.
    simpl. rewrite Hp, He. apply IH; [done|lia].
Qed.

Lemma deref_never_Err k t e : deref U k t <> Err e.
Proof.
  revert t. induction k as [|k IH]; intros t; [done|]. simpl.
  destruct (reflect.kind (U t)); try done.
  destruct (reflect.elem (U t)); [apply IH|done].
Qed.

End Pointers.

(** X1.  [deref] strips exactly the pointer layers: what it returns is not
    a pointer type and is left alone by a second [deref]; a type under [n]
    pointer layers is reached from any fuel above [n]; and [deref] has no
    error return. *)
Theorem deref_strips_pointers (U : reflect.Type_ -> reflect.rtype) (k : nat)
    (t : reflect.Type_) :
  (forall t', deref U k t = Ok t' ->
     reflect.kind (U t') <> reflect.Pointer /\ deref U k t' = Ok t') /\
  (forall n inner, pointer_chain U n t inner -> (n < k)%nat ->
     deref U k t = Ok inner) /\
  (forall e, deref U k t <> Err e).
Proof.
  split; [|split].
  - intros t' E. pose proof (deref_Ok_non_pointer U k t t' E) as Hnp.
    split; [done|]. destruct k as [|k]; [done|]. by apply deref_non_pointer.
  - intros n inner. apply deref_pointer_chain.
  - intros e. apply deref_never_Err.
Qed.

Lemma deref_strips_pointers_witness :
  deref fixtures 2 "*Node" = Ok "Node" /\ deref fixtures 2 "Node" = Ok "Node".
Proof.
  assert (deref fixtures 2 "*Node" = Ok "Node") as E.
  { apply (proj1 (proj2 (deref_strips_pointers fixtures 2 "*Node")) 1%nat "Node");
      [|lia]. simpl. split; [done|]. exists "Node". by repeat split. }
  split; [exact E|].
  exact (proj2 (proj1 (deref_strips_pointers fixtures 2 "*Node") "Node" E)).
Defined.

(** X2.  Pointers are transparent to the conversion: a type under any
    number of pointer layers converts exactly as the type itself, at the same
    depth and with the same outcome, error or not. *)
Theorem pointers_are_transparent (U : reflect.Type_ -> reflect.rtype) (n k : nat)
    (t inner : reflect.Type_) (visited : Visited) (depth : Z) (opts : Options) :
  pointer_chain U n t inner -> (n < k)%nat ->
  JsonTypeOf U (S k) t visited depth opts = JsonTypeOf U (S k) inner visited depth opts.
Proof.
  intros Hc Hk. apply JsonTypeOf_resolved. by eapply deref_pointer_chain.
Qed.

Lemma pointers_are_transparent_witness :
  JsonTypeOf fixtures 6 "*Node" ∅ 0 DefaultOptions =
  JsonTypeOf fixtures 6 "Node" ∅ 0 DefaultOptions.
Proof.
  apply (pointers_are_transparent fixtures 1 5 "*Node" "Node"); [|lia].
  simpl. split; [done|]. exists "Node". by repeat split.
Defined.

(** *** [parseJSONTag] *)

Lemma split_comma_nonempty s : split_comma s <> [].
Proof.
  destruct s as [|c s]; [done|]. simpl.
  destruct (Ascii.eqb c ","); [done|]. by destruct (split_comma s).
Qed.

Lemma split_comma_free (a : string) : comma_free a = true -> split_comma a = [a].
Proof.
  induction a as [|c a IH]; [done|]. simpl. intros H.
  apply andb_true_iff in H as [Hc Ha]. apply negb_true_iff in Hc. rewrite Hc.
  by rewrite (IH Ha).
Qed.

Lemma split_comma_segment (a b : string) :
  comma_free a = true ->
  split_comma (String.append a (String "," b)) = a :: split_comma b.
Proof.
  induction a as [|c a IH]; [done|]. simpl. intros H.
  apply andb_true_iff in H as [Hc Ha]. apply negb_true_iff in Hc. rewrite Hc.
  by rewrite (IH Ha).
Qed.

Lemma split_comma_segments_free s : Forall (fun seg => comma_free seg = true) (split_comma s).
Proof.
  induction s as [|c s IH]; [by repeat constructor|]. simpl.
  destruct (Ascii.eqb c ",") eqn:Hc; [by constructor|].
  destruct (split_comma s) as [|seg segs]; [by repeat constructor; simpl; rewrite Hc|].
  inversion IH; subst. constructor; [simpl; by rewrite Hc|done].
Qed.

Lemma has_omitempty_elem_of parts :
  has_omitempty parts = bool_decide ("omitempty" ∈ parts).
Proof.
  induction parts as [|p parts IH]; [done|]. simpl.
  destruct (String.eqb_spec p "omitempty") as [->|Hne].
  - symmetry. apply bool_decide_eq_true_2. by left.
  - rewrite IH. apply bool_decide_ext. rewrite elem_of_cons. naive_solver.
Qed.

(** X3.  How a tag is read: the empty tag gives the field's name and no
    option; otherwise the text before the first comma is the name, the
    field's name standing in when it is empty, and the field is optional
    exactly when one of the following comma-separated segments is
    ["omitempty"], whatever the other segments are. *)
Theorem parseJSONTag_segments (fieldName name options : string) :
  comma_free name = true ->
  parseJSONTag fieldName "" = (fieldName, false) /\
  (name <> "" -> parseJSONTag fieldName name = (name, false)) /\
  parseJSONTag fieldName (String.append name (String "," options)) =
    (if decide (name = "") then fieldName else name,
     bool_decide ("omitempty" ∈ split_comma options)).
Proof.
  intros Hfree. split; [done|]. split.
  - intros Hne. unfold parseJSONTag.
    destruct (String.eqb_spec name "") as [E|_]; [done|].
    rewrite split_comma_free by done. simpl.
    by destruct (String.eqb_spec name "").
  - unfold parseJSONTag.
    destruct (String.eqb_spec (String.append name (String "," options)) "") as [E|_];
      [by destruct name|].
    rewrite split_comma_segment by done. simpl.
    rewrite has_omitempty_elem_of.
    destruct (String.eqb_spec name "") as [->|Hne]; simpl.
    + done.
    + by destruct (decide (name = "")).
Qed.

Lemma parseJSONTag_segments_witness :
  parseJSONTag "MyField" "my_field,string,omitempty" = ("my_field", true) /\
  parseJSONTag "MyField" ",omitempty" = ("MyField", true).
Proof.
  split.
  - exact (proj2 (proj2 (parseJSONTag_segments "MyField" "my_field" "string,omitempty"
                           eq_refl))).
  - exact (proj2 (proj2 (parseJSONTag_segments "MyField" "" "omitempty" eq_refl))).
Defined.

(** X4.  The emitted name is the field's name or a segment of the tag: it
    is never empty when the field's name is not, and it holds a comma only
    if the field's name does. *)
Theorem emitted_name_well_formed (fieldName tag : string) :
  (fieldName <> "" -> (parseJSONTag fieldName tag).1 <> "") /\
  (comma_free fieldName = true -> comma_free (parseJSONTag fieldName tag).1 = true).
Proof.
  unfold parseJSONTag.
  destruct (String.eqb_spec tag "") as [_|_]; [done|].
  pose proof (split_comma_segments_free tag) as Hfree.
  destruct (split_comma tag) as [|p0 parts]; [done|]. simpl.
  destruct (String.eqb_spec p0 "") as [->|Hne]; simpl; [done|].
  split; [done|]. intros _. by inversion Hfree.
Qed.

Lemma emitted_name_well_formed_witness :
  (parseJSONTag "ID" ",omitempty").1 <> "" /\
  comma_free (parseJSONTag "ID" "id,omitempty").1 = true.
Proof.
  split.
  - apply (proj1 (emitted_name_well_formed "ID" ",omitempty")). discriminate.
  - apply (proj2 (emitted_name_well_formed "ID" "id,omitempty")). reflexivity.
Defined.

(** *** Failures, sequences and skipped fields *)

Section Shapes.

Variable U : reflect.Type_ -> reflect.rtype.

Lemma fieldLoop_visible sp jt fs props required v :
  fieldLoop sp jt fs props required v =
  fieldLoop sp jt (List.filter visible fs) props required v.
Proof.
  revert props required v. induction fs as [|f fs IH]; intros props required v; [done|].
  simpl. unfold visible at 1.
  destruct (String.eqb (reflect.PkgPath f) "") eqn:Hp; simpl; [|apply IH].
  destruct (reflect.Anonymous f) eqn:Ha; simpl.
  - rewrite Hp, Ha. simpl.
    destruct (sp (reflect.Typ f) v) as [[[ep er]| | |] v1]; [apply IH|done..].
  - destruct (String.eqb (reflect.Tag f) "-") eqn:Ht; simpl; [apply IH|].
    rewrite Hp, Ha, Ht. simpl.
    destruct (parseJSONTag _ _) as [fieldName isOptional].
    destruct (jt (reflect.Typ f) v) as [[s| | |] v1]; [apply IH|done..].
Qed.

Lemma structProperties_visible k t v d o :
  reflect.kind (U t) = reflect.Struct ->
  structProperties U (S k) t v d o =
  structFields U k (List.filter visible (reflect.fields (U t))) ∅ [] v d o.
Proof. intros Hk. rewrite structProperties_S by done. apply fieldLoop_visible. Qed.

(** A struct whose loop stops with a failure at a field returns it. *)
Lemma JsonTypeOf_struct_fails k t v d o pre f post ps1 rq1 (r : result (gmap string value * list string)) :
  reflect.kind (U t) = reflect.Struct -> d <= MaxDepth o -> t ∉ v ->
  reflect.fields (U t) = pre ++ f :: post ->
  structFields U k pre ∅ [] ({[ t ]} ∪ v) (int_add d 1) o = (Ok (ps1, rq1), {[ t ]} ∪ v) ->
  structFields U k (f :: post) ps1 rq1 ({[ t ]} ∪ v) (int_add d 1) o = (r, {[ t ]} ∪ v) ->
  (forall x, r <> Ok x) ->
  JsonTypeOf U (S (S k)) t v d o = (fail_as r, v).
Proof.
  intros Hk Hd Hin Hf Epre Ef Hr.
  rewrite JsonTypeOf_struct by done. rewrite bool_decide_eq_false_2 by done.
  rewrite structProperties_S, Hf, structFields_app, Epre, Ef by done.
  destruct r as [x| | |]; [by destruct (Hr x)|..]; simpl; f_equal; set_solver.
Qed.

End Shapes.

(** X5.  The first failure is reported unchanged and ends the conversion:
    an array or slice fails with the error of its element type, and a struct
    with the error of the first field that fails, named or embedded, once the
    fields declared before it have converted; the fields declared after it
    are not looked at. *)
Theorem first_failure_is_returned (U : reflect.Type_ -> reflect.rtype) (k : nat)
    (t : reflect.Type_) (visited : Visited) (depth : Z) (opts : Options) (e : error) :
  depth <= MaxDepth opts ->
  (forall el,
     reflect.kind (U t) = reflect.Slice \/ reflect.kind (U t) = reflect.Array ->
     reflect.elem (U t) = Some el ->
     JsonTypeOf U (S k) el visited (int_add depth 1) opts = (Err e, visited) ->
     JsonTypeOf U (S (S (S k))) t visited depth opts = (Err e, visited)) /\
  (forall pre f post ps1 rq1,
     reflect.kind (U t) = reflect.Struct -> t ∉ visited ->
     reflect.fields (U t) = pre ++ f :: post ->
     structFields U k pre ∅ [] ({[ t ]} ∪ visited) (int_add depth 1) opts =
       (Ok (ps1, rq1), {[ t ]} ∪ visited) ->
     reflect.PkgPath f = "" ->
     (reflect.Anonymous f = false -> reflect.Tag f <> "-" ->
      JsonTypeOf U k (reflect.Typ f) ({[ t ]} ∪ visited) (int_add depth 1) opts =
        (Err e, {[ t ]} ∪ visited) ->
      JsonTypeOf U (S (S k)) t visited depth opts = (Err e, visited)) /\
     (reflect.Anonymous f = true ->
      structProperties U k (reflect.Typ f) ({[ t ]} ∪ visited) (int_add depth 1) opts =
        (Err e, {[ t ]} ∪ visited) ->
      JsonTypeOf U (S (S k)) t visited depth opts = (Err e, visited))).
Proof.
  intros Hd. split.
  - intros el Hk He E. rewrite (JsonTypeOf_sequence U k t el) by done. by rewrite E.
  - intros pre f post ps1 rq1 Hk Hin Hf Epre Hp. split.
    + intros Ha Ht E.
      apply (JsonTypeOf_struct_fails U k t visited depth opts pre f post ps1 rq1 (Err e));
        try done.
      by rewrite (structFields_named U k f post ps1 rq1 _ _ _ (Err e) _ Hp Ha Ht E).
    + intros Ha E.
      apply (JsonTypeOf_struct_fails U k t visited depth opts pre f post ps1 rq1 (Err e));
        try done.
      by rewrite (structFields_embedded U k f post ps1 rq1 _ _ _ (Err e) _ Hp Ha E).
Qed.

Lemma first_failure_is_returned_witness :
  JsonTypeOf nested_records 4 "[]map[string]int" ∅ 0 DefaultOptions =
    (Err ErrUnsupportedType, ∅) /\
  JsonTypeOf more_types 4 "Leaky" ∅ 0 DefaultOptions = (Err ErrUnsupportedType, ∅).
Proof.
  split.
  - apply (proj1 (first_failure_is_returned nested_records 1 "[]map[string]int" ∅ 0
                    DefaultOptions ErrUnsupportedType ltac:(simpl; lia))
             "map[string]int"); [by left | reflexivity | vm_compute; reflexivity].
  - assert (structFields more_types 2 [exported "Name" "string" "name"] ∅ []
              ({[ "Leaky" ]} ∪ ∅) (int_add 0 1) DefaultOptions =
            (Ok ({[ "name" := VSchema {[ "type" := VString "string" ]} ]}, ["name"]),
             {[ "Leaky" ]} ∪ ∅)) as Epre by (vm_compute; reflexivity).
    assert (JsonTypeOf more_types 2 "map[string]int" ({[ "Leaky" ]} ∪ ∅) (int_add 0 1)
              DefaultOptions = (Err ErrUnsupportedType, {[ "Leaky" ]} ∪ ∅)) as Ef
      by (vm_compute; reflexivity).
    assert (0 <= MaxDepth DefaultOptions) as Hd by (simpl; lia).
    refine (proj1 (proj2 (first_failure_is_returned more_types 2 "Leaky" ∅ 0
                            DefaultOptions ErrUnsupportedType Hd)
                     [exported "Name" "string" "name"]
                     (exported "Index" "map[string]int" "index")
                     [exported "Rest" "string" "rest"]
                     {[ "name" := VSchema {[ "type" := VString "string" ]} ]} ["name"]
                     eq_refl _ eq_refl Epre eq_refl) eq_refl _ Ef);
      [apply not_elem_of_empty | discriminate].
Defined.

(** X6.  A slice and an array convert alike, to the schema with exactly
    the keys ["type"], which is ["array"], and ["items"], which is the schema
    of the element type, a bare primitive name being wrapped as
    [{"type": name}]: [items] is always a schema. *)
Theorem sequence_schema (U : reflect.Type_ -> reflect.rtype) (k : nat)
    (t el : reflect.Type_) (visited : Visited) (depth : Z) (opts : Options) (s : value) :
  reflect.kind (U t) = reflect.Slice \/ reflect.kind (U t) = reflect.Array ->
  reflect.elem (U t) = Some el ->
  depth <= MaxDepth opts ->
  JsonTypeOf U (S k) el visited (int_add depth 1) opts = (Ok s, visited) ->
  exists items : gmap string value,
    JsonTypeOf U (S (S (S k))) t visited depth opts =
      (Ok (VSchema (<["type" := VString "array"]> (<["items" := VSchema items]> ∅))),
       visited) /\
    (forall name, s = VString name -> items = {[ "type" := VString name ]}) /\
    (forall schema, s = VSchema schema -> items = schema).
Proof.
  intros Hk He Hd E.
  rewrite (JsonTypeOf_sequence U k t el) by done. rewrite E.
  destruct (JsonTypeOf_Ok_shape U _ _ _ _ _ _ _ E) as [H|[m ->]].
  - assert (exists n, s = VString n) as [n ->].
    { repeat (apply elem_of_cons in H as [->|H]; [eauto|]). by apply elem_of_nil in H. }
    exists {[ "type" := VString n ]}. split; [done|]. split; congruence.
  - exists m. split; [done|]. split; congruence.
Qed.

Lemma sequence_schema_witness :
  JsonTypeOf nested_records 4 "[]int" ∅ 0 DefaultOptions =
    (Ok (VSchema (<["type" := VString "array"]>
                  (<["items" := VSchema {[ "type" := VString "integer" ]}]> ∅))), ∅).
Proof.
  destruct (sequence_schema nested_records 1 "[]int" "int" ∅ 0 DefaultOptions
              (VString "integer") ltac:(by left) eq_refl ltac:(simpl; lia)
              ltac:(vm_compute; reflexivity)) as (items & E & Hname & _).
  by rewrite E, (Hname "integer" eq_refl).
Defined.

(** X7.  Only the fields the loop does something with matter: a struct
    converts as if its unexported fields and its named fields tagged ["-"]
    were not declared, whatever their types. *)
Theorem only_visible_fields_matter (U : reflect.Type_ -> reflect.rtype) (k : nat)
    (t : reflect.Type_) (visited : Visited) (depth : Z) (opts : Options) :
  reflect.kind (U t) = reflect.Struct ->
  structProperties U (S k) t visited depth opts =
  structFields U k (List.filter visible (reflect.fields (U t))) ∅ [] visited depth opts.
Proof. apply structProperties_visible. Qed.

Lemma only_visible_fields_matter_witness :
  structProperties more_types 2 "Query" ∅ 1 DefaultOptions =
  structFields more_types 1 [] ∅ [] ∅ 1 DefaultOptions.
Proof.
  exact (only_visible_fields_matter more_types 1 "Query" ∅ 1 DefaultOptions eq_refl).
Defined.

(** X8.  A struct with no field to convert (none declared, or all of them
    unexported or tagged ["-"]) converts, even at the depth limit, to the
    object schema with empty [properties] and without the ["required"]
    key. *)
Theorem struct_without_visible_fields (U : reflect.Type_ -> reflect.rtype) (k : nat)
    (t : reflect.Type_) (visited : Visited) (depth : Z) (opts : Options) :
  reflect.kind (U t) = reflect.Struct -> t ∉ visited -> depth <= MaxDepth opts ->
  List.filter visible (reflect.fields (U t)) = [] ->
  exists schema : gmap string value,
    JsonTypeOf U (S (S k)) t visited depth opts = (Ok (VSchema schema), visited) /\
    schema !! "type" = Some (VString "object") /\
    schema !! "properties" = Some (VSchema ∅) /\
    schema !! "additionalProperties" = Some (VBool (AllowAdditionalProperty opts)) /\
    schema !! "required" = None.
Proof.
  intros Hk Hin Hd Hnone. exists (objectSchema opts ∅ []).
  split; [|by repeat split].
  rewrite JsonTypeOf_struct by done. rewrite bool_decide_eq_false_2 by done.
  rewrite structProperties_visible, Hnone, structFields_nil by done.
  f_equal. set_solver.
Qed.

Lemma struct_without_visible_fields_witness :
  exists schema : gmap string value,
    JsonTypeOf more_types 2 "Query" ∅ 50 DefaultOptions = (Ok (VSchema schema), ∅) /\
    schema !! "required" = None.
Proof.
  destruct (struct_without_visible_fields more_types 0 "Query" ∅ 50 DefaultOptions
              eq_refl (not_elem_of_empty _) ltac:(simpl; lia) eq_refl)
    as (schema & E & _ & _ & _ & Hr).
  by exists schema.
Defined.

(** *** The shape of every schema *)

Section Nodes.

Variable U : reflect.Type_ -> reflect.rtype.
Variable opts : Options.

Lemma Node_is_schema s : Node opts s -> exists m, s = VSchema m.
Proof. intros []; eauto. Qed.

Lemma fieldProperty_Node isOptional s :
  name_or_node opts s -> Node opts (fieldProperty isOptional s).
Proof.
  intros [(name & Hname & ->)|H].
  - simpl. destruct isOptional; by constructor.
  - destruct (Node_is_schema s H) as [m ->]. simpl.
    destruct isOptional; [by constructor|done].
Qed.

Lemma itemSchema_Node s : name_or_node opts s -> Node opts (itemSchema s).
Proof.
  intros [(name & Hname & ->)|H].
  - simpl. by constructor.
  - by destruct (Node_is_schema s H) as [m ->].
Qed.

(** An invariant of the loop state that holds for what the two calls return. *)
Lemma fieldLoop_invariant_of_results
    (I : gmap string value -> list string -> Prop) sp jt :
  (forall t v ep er v' p r,
      sp t v = (Ok (ep, er), v') -> I p r -> I (ep ∪ p) (r ++ er)) ->
  (forall t v s v' name isOptional p r,
      jt t v = (Ok s, v') -> I p r ->
      I (<[name := fieldProperty isOptional s]> p) (r ++ [name])) ->
  forall fs props required v ps rq v',
    I props required ->
    fieldLoop sp jt fs props required v = (Ok (ps, rq), v') -> I ps rq.
Proof.
  intros Hsp Hjt. induction fs as [|f fs IH]; intros props required v ps rq v' HI E;
    simpl in E.
  - by simplify_eq.
  - destruct (negb _); [by eapply IH|].
    destruct (reflect.Anonymous f).
    + destruct (sp (reflect.Typ f) v) as [[[ep er]| | |] v1] eqn:E1; try done.
      eapply IH; [|exact E]. by eapply Hsp.
    + destruct (String.eqb _ "-"); [by eapply IH|].
      destruct (parseJSONTag _ _) as [fieldName isOptional].
      destruct (jt (reflect.Typ f) v) as [[s| | |] v1] eqn:E1; try done.
      eapply IH; [|exact E]. by eapply Hjt.
Qed.

Lemma kindSwitch_Node pa sp t v d s v' :
  (forall t v d s v', pa t v d opts = (Ok s, v') -> Node opts s) ->
  (forall t v d ps rq v', sp t v d opts = (Ok (ps, rq), v') ->
     same_names ps rq /\ node_props opts ps) ->
  kindSwitch U pa sp t v d opts = (Ok s, v') -> name_or_node opts s.
Proof.
  intros Hpa Hsp E. unfold kindSwitch in E.
  destruct (reflect.kind (U t)); simplify_eq;
    try (left; eexists; split; [|reflexivity]; unfold primitive_names; set_solver).
  - destruct (pa _ _ _ _) as [[items| | |] v1] eqn:E1; simplify_eq.
    right. constructor. by eapply Hpa.
  - destruct (pa _ _ _ _) as [[items| | |] v1] eqn:E1; simplify_eq.
    right. constructor. by eapply Hpa.
  - destruct (sp _ _ _ _) as [[[ps rq]| | |] v1] eqn:E1; simplify_eq.
    right. destruct (Hsp _ _ _ _ _ _ E1). by constructor.
Qed.

Lemma nodes_all k :
  (forall t v d s v', JsonTypeOf U k t v d opts = (Ok s, v') -> name_or_node opts s) /\
  (forall t v d s v', parseArrayItemType U k t v d opts = (Ok s, v') -> Node opts s) /\
  (forall t v d ps rq v', structProperties U k t v d opts = (Ok (ps, rq), v') ->
     same_names ps rq /\ node_props opts ps).
Proof.
  induction k as [|k (IHj & IHp & IHs)]; [by repeat split|].
  split; [|split].
  - intros t v d s v' E. simpl in E. unfold JsonTypeOf_body in E.
    destruct (d >? MaxDepth opts); [done|].
    destruct (deref U k t) as [t1| | |]; try done.
    destruct (reflect.kind (U t1)); try (by eapply kindSwitch_Node).
    destruct (bool_decide _); [done|].
    destruct (kindSwitch _ _ _ _ _ _ _) as [r1 v1] eqn:E1. simplify_eq.
    by eapply kindSwitch_Node.
  - intros t v d s v' E. simpl in E. unfold parseArrayItemType_body in E.
    destruct (reflect.elem (U t)) as [e|]; [|done].
    destruct (JsonTypeOf U k e v d opts) as [[s1| | |] v1] eqn:E1; simplify_eq.
    apply itemSchema_Node. by eapply IHj.
  - intros t v d ps rq v' E. split; [by eapply structProperties_same_names|].
    simpl in E. unfold structProperties_body in E.
    destruct (reflect.kind (U t)); try done.
    eapply (fieldLoop_invariant_of_results (fun p _ => node_props opts p));
      [| | |exact E].
    + intros t' v0 ep er v1 p r E1 Hp name x Hx.
      apply lookup_union_Some_raw in Hx as [Hx|[_ Hx]]; [|by eapply Hp].
      destruct (IHs _ _ _ _ _ _ E1) as [_ He]. by eapply He.
    + intros t' v0 s v1 name isOptional p r E1 Hp n x Hx.
      destruct (decide (name = n)) as [->|Hne].
      * rewrite lookup_insert_eq in Hx. simplify_eq.
        apply fieldProperty_Node. eapply IHj. exact E1.
      * rewrite lookup_insert_ne in Hx by done. by eapply Hp.
    + intros name x Hx. by rewrite lookup_empty in Hx.
Qed.

End Nodes.



(** *** Raising the depth limit *)

Section RaiseLimit.

Variable U : reflect.Type_ -> reflect.rtype.
Variable opts : Options.
Variable m : Z.
Hypothesis limit_raised : MaxDepth opts <= m.

Lemma fieldLoop_settled sp sp' jt jt' :
  (forall t v r v', sp t v = (r, v') -> settled r -> sp' t v = (r, v')) ->
  (forall t v r v', jt t v = (r, v') -> settled r -> jt' t v = (r, v')) ->
  forall fs props required v r v',
    fieldLoop sp jt fs props required v = (r, v') -> settled r ->
    fieldLoop sp' jt' fs props required v = (r, v').
Proof.
  intros Hsp Hjt. induction fs as [|f fs IH]; intros props required v r v' E Hr;
    simpl in *; [done|].
  destruct (negb _); [by apply IH|].
  destruct (reflect.Anonymous f).
  - destruct (sp (reflect.Typ f) v) as [r1 v1] eqn:E1.
    assert (settled r1) as H1.
    { destruct r1 as [[ep er]|e| |]; simplify_eq; done. }
    rewrite (Hsp _ _ _ _ E1 H1).
    destruct r1 as [[ep er]| | |]; try done. by apply IH.
  - destruct (String.eqb _ "-"); [by apply IH|].
    destruct (parseJSONTag _ _) as [fieldName isOptional].
    destruct (jt (reflect.Typ f) v) as [r1 v1] eqn:E1.
    assert (settled r1) as H1.
    { destruct r1 as [s|e| |]; simplify_eq; done. }
    rewrite (Hjt _ _ _ _ E1 H1).
    destruct r1; try done. by apply IH.
Qed.

Lemma objectSchema_with_MaxDepth ps rq :
  objectSchema (with_MaxDepth opts m) ps rq = objectSchema opts ps rq.
Proof. done. Qed.

Lemma raise_limit_all k :
  (forall t v d r v', JsonTypeOf U k t v d opts = (r, v') -> settled r ->
     JsonTypeOf U k t v d (with_MaxDepth opts m) = (r, v')) /\
  (forall t v d r v', parseArrayItemType U k t v d opts = (r, v') -> settled r ->
     parseArrayItemType U k t v d (with_MaxDepth opts m) = (r, v')) /\
  (forall t v d r v', structProperties U k t v d opts = (r, v') -> settled r ->
     structProperties U k t v d (with_MaxDepth opts m) = (r, v')).
Proof.
  induction k as [|k (IHj & IHp & IHs)].
  { repeat split; intros t v d r v' E Hr; simpl in E; by simplify_eq. }
  assert (forall t v d r v',
             kindSwitch U (parseArrayItemType U k) (structProperties U k) t v d opts
               = (r, v') -> settled r ->
             kindSwitch U (parseArrayItemType U k) (structProperties U k) t v d
               (with_MaxDepth opts m) = (r, v')) as Hsw.
  { intros t v d r v' E Hr. unfold kindSwitch in *.
    destruct (reflect.kind (U t)); try done.
    - destruct (parseArrayItemType U k t v _ opts) as [r1 v1] eqn:E1.
      assert (settled r1) as H1 by (destruct r1; simplify_eq; done).
      by rewrite (IHp _ _ _ _ _ E1 H1).
    - destruct (parseArrayItemType U k t v _ opts) as [r1 v1] eqn:E1.
      assert (settled r1) as H1 by (destruct r1; simplify_eq; done).
      by rewrite (IHp _ _ _ _ _ E1 H1).
    - destruct (structProperties U k t v _ opts) as [r1 v1] eqn:E1.
      assert (settled r1) as H1 by (destruct r1 as [[]| | |]; simplify_eq; done).
      rewrite (IHs _ _ _ _ _ E1 H1). by destruct r1 as [[ps rq]| | |]. }
  split; [|split].
  - intros t v d r v' E Hr. simpl in *. unfold JsonTypeOf_body in *.
    destruct (Z.gtb_spec d (MaxDepth opts)); [by simplify_eq|].
    destruct (Z.gtb_spec d (MaxDepth (with_MaxDepth opts m))); [simpl in *; lia|].
    destruct (deref U k t) as [t1| | |]; try done.
    destruct (reflect.kind (U t1)); try (by apply Hsw).
    destruct (bool_decide _); [by simplify_eq|].
    destruct (kindSwitch _ _ _ _ _ _ opts) as [r1 v1] eqn:E1. simplify_eq.
    by rewrite (Hsw _ _ _ _ _ E1 Hr).
  - intros t v d r v' E Hr. simpl in *. unfold parseArrayItemType_body in *.
    destruct (reflect.elem (U t)) as [e|]; [|done].
    destruct (JsonTypeOf U k e v d opts) as [r1 v1] eqn:E1.
    assert (settled r1) as H1 by (destruct r1; simplify_eq; done).
    by rewrite (IHj _ _ _ _ _ E1 H1).
  - intros t v d r v' E Hr. simpl in *. unfold structProperties_body in *.
    destruct (reflect.kind (U t)); try done.
    eapply fieldLoop_settled; [| |exact E|exact Hr]; cbv beta; intros.
    + by apply IHs.
    + by apply IHj.
Qed.

End RaiseLimit.

(** X10.  Raising [MaxDepth] changes nothing but outcomes that were
    [ErrCircularRef]: a conversion that returned a schema returns the same
    schema under any larger limit, and one that failed with
    [ErrUnsupportedType], or panicked, does so again. *)
Theorem raising_MaxDepth_keeps_outcome (U : reflect.Type_ -> reflect.rtype) (k : nat)
    (t : reflect.Type_) (visited : Visited) (depth : Z) (opts : Options) (m : Z)
    (r : result value) (visited' : Visited) :
  MaxDepth opts <= m ->
  JsonTypeOf U k t visited depth opts = (r, visited') ->
  r <> Err ErrCircularRef -> r <> OutOfFuel ->
  JsonTypeOf U k t visited depth (with_MaxDepth opts m) = (r, visited').
Proof.
  intros Hm E Hc Ho. apply (proj1 (raise_limit_all U opts m Hm k)); [done|].
  destruct r as [s|[]| |]; done.
Qed.

Lemma raising_MaxDepth_keeps_outcome_witness :
  JsonTypeOf address_types 4 "Address" ∅ 0 (with_MaxDepth DefaultOptions 1000) =
    (Ok address_schema, ∅).
Proof.
  apply (raising_MaxDepth_keeps_outcome address_types 4 "Address" ∅ 0 DefaultOptions 1000);
    [simpl; lia | vm_compute; reflexivity | discriminate | discriminate].
Defined.

(** *** The order of [required] and the last writer of a property *)

(** X11.  [required] lists the names in declaration order: it is the
    concatenation, field after field, of nothing for a skipped field, the
    required list of the embedded struct for an embedded field, and the
    emitted name for a named field. *)
Theorem required_in_declaration_order (U : reflect.Type_ -> reflect.rtype) (k : nat)
    (t : reflect.Type_) (visited : Visited) (depth : Z) (opts : Options)
    (ps : gmap string value) (rq : list string) (visited' : Visited) :
  structProperties U (S k) t visited depth opts = (Ok (ps, rq), visited') ->
  rq = emitted_names U k visited depth opts (reflect.fields (U t)).
Proof.
  intros E.
  assert (reflect.kind (U t) = reflect.Struct) as Hk.
  { simpl in E. unfold structProperties_body in E. by destruct (reflect.kind (U t)). }
  rewrite structProperties_S in E by done.
  by destruct (structFields_emitted U _ _ _ _ _ _ _ _ _ _ E) as [-> _].
Qed.

Lemma required_in_declaration_order_witness :
  emitted_names fixtures 3 ∅ 1 DefaultOptions (reflect.fields (fixtures "ExtendedInfo")) =
    ["id"; "created_at"; "title"; "content"].
Proof.
  symmetry.
  apply (required_in_declaration_order fixtures 3 "ExtendedInfo" ∅ 1 DefaultOptions
           (<["id" := VSchema {[ "type" := VString "integer" ]}]>
            (<["created_at" := VSchema {[ "type" := VString "string" ]}]>
            (<["title" := VSchema {[ "type" := VString "string" ]}]>
            (<["content" := VSchema {[ "type" := VStrings ["string"; "null"] ]}]> ∅))))
           _ ∅).
  vm_compute. reflexivity.
Defined.

(** X12.  The last writer of a name owns the property: in a struct that
    converts, the property stored for a named field, and each property of an
    embedded struct, is the one found in the result unless a field declared
    later emits the same name. *)
Theorem last_writer_owns_property (U : reflect.Type_ -> reflect.rtype) (k : nat)
    (t : reflect.Type_) (visited : Visited) (depth : Z) (opts : Options)
    (pre post : list reflect.StructField) (f : reflect.StructField)
    (ps : gmap string value) (rq : list string) (visited' : Visited) :
  reflect.fields (U t) = pre ++ f :: post ->
  reflect.PkgPath f = "" ->
  structProperties U (S k) t visited depth opts = (Ok (ps, rq), visited') ->
  (reflect.Anonymous f = false -> reflect.Tag f <> "-" ->
   let name := (parseJSONTag (reflect.Name f) (reflect.Tag f)).1 in
   name ∉ emitted_names U k visited depth opts post ->
   exists s,
     JsonTypeOf U k (reflect.Typ f) visited depth opts = (Ok s, visited) /\
     ps !! name =
       Some (fieldProperty (parseJSONTag (reflect.Name f) (reflect.Tag f)).2 s)) /\
  (reflect.Anonymous f = true ->
   exists eps erq,
     structProperties U k (reflect.Typ f) visited depth opts = (Ok (eps, erq), visited) /\
     forall name x, eps !! name = Some x ->
       name ∉ emitted_names U k visited depth opts post -> ps !! name = Some x).
Proof.
  intros Hf Hp E.
  assert (reflect.kind (U t) = reflect.Struct) as Hk.
  { simpl in E. unfold structProperties_body in E. by destruct (reflect.kind (U t)). }
  rewrite structProperties_S, Hf, structFields_app in E by done.
  destruct (structFields U k pre ∅ [] visited depth opts)
    as [[[ps1 rq1]| | |] v1] eqn:E1; try done.
  pose proof (structFields_visited U _ _ _ _ _ _ _ _ _ E1) as ->.
  split.
  - intros Ha Ht name Hn.
    destruct (JsonTypeOf U k (reflect.Typ f) visited depth opts) as [r2 v2] eqn:E2.
    pose proof (JsonTypeOf_visited U _ _ _ _ _ _ _ E2) as ->.
    rewrite (structFields_named U k f post ps1 rq1 _ _ _ r2 _ Hp Ha Ht E2) in E.
    destruct r2 as [s| | |]; try done. exists s. split; [done|].
    subst name. destruct (parseJSONTag _ _) as [fieldName isOptional]. simpl in *.
    destruct (structFields_emitted U _ _ _ _ _ _ _ _ _ _ E) as [_ Hkeep].
    rewrite Hkeep by done. apply lookup_insert_eq.
  - intros Ha.
    destruct (structProperties U k (reflect.Typ f) visited depth opts)
      as [r2 v2] eqn:E2.
    pose proof (structProperties_visited U _ _ _ _ _ _ _ E2) as ->.
    rewrite (structFields_embedded U k f post ps1 rq1 _ _ _ r2 _ Hp Ha E2) in E.
    destruct r2 as [[eps erq]| | |]; try done. exists eps, erq. split; [done|].
    intros name x Hx Hn.
    destruct (structFields_emitted U _ _ _ _ _ _ _ _ _ _ E) as [_ Hkeep].
    rewrite Hkeep by done. by apply lookup_union_Some_l.
Qed.

Lemma last_writer_owns_property_witness :
  exists s,
    JsonTypeOf colliding 3 "string" ∅ 1 DefaultOptions = (Ok s, ∅) /\
    ({[ "id" := VSchema {[ "type" := VString "string" ]} ]} : gmap string value) !! "id" =
      Some (fieldProperty false s).
Proof.
  assert (structProperties colliding 4 "Derived" ∅ 1 DefaultOptions =
          (Ok ({[ "id" := VSchema {[ "type" := VString "string" ]} ]}, ["id"; "id"]),
           ∅)) as E by (vm_compute; reflexivity).
  apply (proj1 (last_writer_owns_property colliding 3 "Derived" ∅ 1 DefaultOptions
                  [embedded "Base"] [] (exported "Ident" "string" "id")
                  _ _ _ eq_refl eq_refl E)
           eq_refl ltac:(discriminate)).
  apply not_elem_of_nil.
Defined.

(** *** Panics *)

Section NoPanic.

Variable U : reflect.Type_ -> reflect.rtype.
Hypothesis Helems : elems_present U.
Hypothesis Hembedded : embedded_are_structs U.

Lemma deref_no_panic k t : deref U k t <> Panic.
Proof.
  revert t. induction k as [|k IH]; intros t; [done|]. simpl.
  destruct (reflect.kind (U t)) eqn:Hk; try done.
  destruct (Helems t) as [e He]; [by left|]. rewrite He. apply IH.
Qed.

Lemma fieldLoop_no_panic sp jt fs :
  (forall f, f ∈ fs -> reflect.PkgPath f = "" -> reflect.Anonymous f = true ->
     forall v, (sp (reflect.Typ f) v).1 <> Panic) ->
  (forall t v, (jt t v).1 <> Panic) ->
  forall props required v, (fieldLoop sp jt fs props required v).1 <> Panic.
Proof.
  intros Hsp Hjt. induction fs as [|f fs IH]; intros props required v; [done|].
  assert (forall p r v0, (fieldLoop sp jt fs p r v0).1 <> Panic) as IH'.
  { apply IH. intros g Hg. apply Hsp. by right. }
  simpl. destruct (String.eqb_spec (reflect.PkgPath f) "") as [Hp|Hp]; simpl; [|apply IH'].
  destruct (reflect.Anonymous f) eqn:Ha.
  - specialize (Hsp f ltac:(by left) Hp Ha v).
    destruct (sp (reflect.Typ f) v) as [[[ep er]| | |] v1]; simpl in *;
      [apply IH'|done..].
  - destruct (String.eqb _ "-"); [apply IH'|].
    destruct (parseJSONTag _ _) as [fieldName isOptional].
    specialize (Hjt (reflect.Typ f) v).
    destruct (jt (reflect.Typ f) v) as [[s| | |] v1]; simpl in *;
      [apply IH'|done..].
Qed.

Lemma no_panic_all k :
  (forall t v d o, (JsonTypeOf U k t v d o).1 <> Panic) /\
  (forall t v d o,
     reflect.kind (U t) = reflect.Slice \/ reflect.kind (U t) = reflect.Array ->
     (parseArrayItemType U k t v d o).1 <> Panic) /\
  (forall t v d o, reflect.kind (U t) = reflect.Struct ->
     (structProperties U k t v d o).1 <> Panic).
Proof.
  induction k as [|k (IHj & IHp & IHs)]; [by repeat split|].
  assert (forall t v d o,
             (kindSwitch U (parseArrayItemType U k) (structProperties U k) t v d o).1
             <> Panic) as Hsw.
  { intros t v d o. unfold kindSwitch.
    destruct (reflect.kind (U t)) eqn:Hk; try done.
    - specialize (IHp t v (int_add d 1) o ltac:(by right)).
      by destruct (parseArrayItemType U k t v _ o) as [[s| | |] v1].
    - specialize (IHp t v (int_add d 1) o ltac:(by left)).
      by destruct (parseArrayItemType U k t v _ o) as [[s| | |] v1].
    - specialize (IHs t v (int_add d 1) o Hk).
      by destruct (structProperties U k t v _ o) as [[[ps rq]| | |] v1]. }
  split; [|split].
  - intros t v d o. simpl. unfold JsonTypeOf_body.
    destruct (d >? MaxDepth o); [done|].
    pose proof (deref_no_panic k t) as Hd. pose proof (deref_never_Err U k t) as He.
    destruct (deref U k t) as [t1|e| |]; [|by destruct (He e)|done|done].
    destruct (reflect.kind (U t1)); try apply Hsw.
    destruct (bool_decide _); [done|].
    specialize (Hsw t1 ({[t1]} ∪ v) d o).
    by destruct (kindSwitch _ _ _ _ _ _ _) as [r1 v1].
  - intros t v d o Hk. simpl. unfold parseArrayItemType_body.
    destruct (Helems t) as [e He]; [tauto|]. rewrite He.
    specialize (IHj e v d o). by destruct (JsonTypeOf U k e v d o) as [[s| | |] v1].
  - intros t v d o Hk. simpl. unfold structProperties_body. rewrite Hk.
    apply fieldLoop_no_panic.
    + intros f Hin Hp Ha v0. apply IHs. by eapply Hembedded.
    + intros t' v0. apply IHj.
Qed.

End NoPanic.

(** X13.  The conversion never panics on a type table in which every
    exported embedded field has a struct as its declared type (every pointer,
    slice and array type having its element type, as in Go): all calls into
    [reflect] are then on types of the right kind. *)
Theorem conversion_never_panics (U : reflect.Type_ -> reflect.rtype) (k : nat)
    (t : reflect.Type_) (visited : Visited) (depth : Z) (opts : Options) :
  elems_present U -> embedded_are_structs U ->
  (JsonTypeOf U k t visited depth opts).1 <> Panic.
Proof. intros He Hs. by apply (proj1 (no_panic_all U He Hs k)). Qed.

Lemma linked_list_elems_present : elems_present linked_list.
Proof.
  intros t. unfold linked_list, table.
  destruct (String.eqb_spec "string" t); [simpl; naive_solver|].
  destruct (String.eqb_spec "Node" t); [simpl; naive_solver|].
  destruct (String.eqb_spec "*Node" t); simpl; [eauto|naive_solver].
Qed.

Lemma linked_list_embedded_are_structs : embedded_are_structs linked_list.
Proof.
  intros t f Hk Hin _ Ha. exfalso. revert Hk Hin. unfold linked_list, table.
  destruct (String.eqb_spec "string" t); [done|].
  destruct (String.eqb_spec "Node" t);
    [|destruct (String.eqb_spec "*Node" t); done].
  intros _ Hin. simpl in Hin.
  repeat (apply elem_of_cons in Hin as [->|Hin]; [done|]).
  by apply elem_of_nil in Hin.
Qed.

Lemma conversion_never_panics_witness :
  (JsonTypeOf linked_list 7 "Node" ∅ 0 DefaultOptions).1 <> Panic.
Proof.
  apply conversion_never_panics;
    [apply linked_list_elems_present | apply linked_list_embedded_are_structs].
Defined.

(** X14.  An exported embedded field whose declared type is not itself a
    struct, a pointer to a struct for one, makes the conversion of the struct
    panic once the fields declared before it have converted:
    [structProperties] is called on the declared type, without [deref], and
    [NumField] panics. *)
Theorem embedded_non_struct_panics (U : reflect.Type_ -> reflect.rtype) (k : nat)
    (t : reflect.Type_) (visited : Visited) (depth : Z) (opts : Options)
    (pre post : list reflect.StructField) (f : reflect.StructField)
    (ps1 : gmap string value) (rq1 : list string) :
  reflect.kind (U t) = reflect.Struct -> t ∉ visited -> depth <= MaxDepth opts ->
  reflect.fields (U t) = pre ++ f :: post ->
  structFields U (S k) pre ∅ [] ({[ t ]} ∪ visited) (int_add depth 1) opts =
    (Ok (ps1, rq1), {[ t ]} ∪ visited) ->
  reflect.PkgPath f = "" -> reflect.Anonymous f = true ->
  reflect.kind (U (reflect.Typ f)) <> reflect.Struct ->
  JsonTypeOf U (S (S (S k))) t visited depth opts = (Panic, visited).
Proof.
  intros Hk Hin Hd Hf Epre Hp Ha Hns.
  apply (JsonTypeOf_struct_fails U (S k) t visited depth opts pre f post ps1 rq1 Panic);
    try done.
  apply (structFields_embedded U (S k) f post ps1 rq1 _ _ _ Panic _ Hp Ha).
  by apply structProperties_not_struct.
Qed.

Lemma embedded_non_struct_panics_witness :
  JsonTypeOf more_types 4 "Broken" ∅ 0 DefaultOptions = (Panic, ∅).
Proof.
  apply (embedded_non_struct_panics more_types 1 "Broken" ∅ 0 DefaultOptions
           [exported "Name" "string" "name"] [exported "Rest" "string" "rest"]
           (embedded "*Item")
           {[ "name" := VSchema {[ "type" := VString "string" ]} ]} ["name"]);
    [reflexivity | apply not_elem_of_empty | simpl; lia | reflexivity
    | vm_compute; reflexivity | reflexivity | reflexivity | discriminate].
Defined.

(** *** The entry points *)

Section Entry.

Variable U : reflect.Type_ -> reflect.rtype.

(** [GenerateSchema] sees its argument only through the loop over pointers. *)
Lemma GenerateSchema_resolved k t t1 opts :
  deref U k t = Ok t1 ->
  gptschema.GenerateSchema U k (Some t) opts =
  gptschema.GenerateSchema U k (Some t1) opts.
Proof.
  intros E. unfold gptschema.GenerateSchema. rewrite E.
  destruct k as [|k]; [done|].
  by rewrite (deref_non_pointer U k t1 (deref_Ok_non_pointer U _ _ _ E)).
Qed.

(** What [JsonTypeOf] returns for a struct is an object. *)
Lemma JsonTypeOf_struct_Ok k t v d o s v' :
  reflect.kind (U t) = reflect.Struct ->
  JsonTypeOf U k t v d o = (Ok s, v') ->
  exists ps rq, s = VSchema (objectSchema o ps rq) /\ same_names ps rq /\
                node_props o ps.
Proof.
  intros Hk E. destruct k as [|[|k]]; [done| |].
  - simpl in E. unfold JsonTypeOf_body in E. by destruct (d >? MaxDepth o).
  - destruct (Z_gt_le_dec d (MaxDepth o)) as [Hgt|Hle].
    { by rewrite JsonTypeOf_too_deep in E. }
    rewrite JsonTypeOf_struct in E by done.
    destruct (bool_decide _); [done|].
    destruct (structProperties U (S k) t _ _ o) as [[[ps rq]| | |] v1] eqn:E1;
      simplify_eq.
    exists ps, rq. split; [done|].
    exact (proj2 (proj2 (nodes_all U o (S k))) _ _ _ _ _ _ E1).
Qed.

End Entry.

Lemma fold_WithMaxDepth (ds : list Z) (o : Options) :
  fold_left (fun options (opt : gptschema.Option) => opt options)
            (map gptschema.WithMaxDepth ds) o =
  with_MaxDepth o (default (MaxDepth o) (last ds)).
Proof.
  revert o. induction ds as [|d ds IH]; intros o; [by destruct o|].
  simpl. rewrite IH. unfold with_MaxDepth. simpl.
  destruct ds as [|d' ds]; [done|].
  change (last (d :: d' :: ds)) with (last (d' :: ds)).
  by destruct (proj2 (last_is_Some (d' :: ds)) ltac:(done)) as [x ->].
Qed.

Lemma applyOptions_WithMaxDepth (ds : list Z) :
  gptschema.applyOptions (map gptschema.WithMaxDepth ds) =
  with_MaxDepth DefaultOptions (default 50 (last ds)).
Proof. unfold gptschema.applyOptions. by rewrite fold_WithMaxDepth. Qed.


(** X15.  [GenerateSchema] tests its argument before it converts anything:
    a nil value is refused, and so is every value whose type, under any
    number of pointer layers, is not a struct, a supported kind or not,
    whatever the options are. *)
Theorem GenerateSchema_rejects_invalid_input (U : reflect.Type_ -> reflect.rtype)
    (n k : nat) (t inner : reflect.Type_) (opts : list gptschema.Option) :
  pointer_chain U n t inner -> (n < k)%nat ->
  reflect.kind (U inner) <> reflect.Struct ->
  gptschema.GenerateSchema U k None opts =
    gptschema.Failed (gptschema.Errorf "cannot generate schema for nil value") /\
  gptschema.GenerateSchema U k (Some t) opts =
    gptschema.Failed (gptschema.Errorf "the schema is expected to be a Go struct").
Proof.
  intros Hc Hn Hk. split; [done|].
  unfold gptschema.GenerateSchema.
  rewrite (deref_pointer_chain U n t inner k Hc Hn).
  by destruct (reflect.kind (U inner)).
Qed.

Lemma GenerateSchema_rejects_invalid_input_witness :
  gptschema.GenerateSchema more_types 2 None [] =
    gptschema.Failed (gptschema.Errorf "cannot generate schema for nil value") /\
  gptschema.GenerateSchema more_types 2 (Some "*string") [] =
    gptschema.Failed (gptschema.Errorf "the schema is expected to be a Go struct").
Proof.
  apply (GenerateSchema_rejects_invalid_input more_types 1 2 "*string" "string" []);
    [|lia|discriminate].
  simpl. split; [done|]. exists "string". by repeat split.
Defined.

(** X16.  A value and a pointer to it give the same outcome: a type under
    any number of pointer layers is treated as the type itself, schema or
    error, with any options. *)
Theorem GenerateSchema_value_or_pointer (U : reflect.Type_ -> reflect.rtype)
    (n k : nat) (t inner : reflect.Type_) (opts : list gptschema.Option) :
  pointer_chain U n t inner -> (n < k)%nat ->
  gptschema.GenerateSchema U k (Some t) opts =
  gptschema.GenerateSchema U k (Some inner) opts.
Proof.
  intros Hc Hn. apply GenerateSchema_resolved. by eapply deref_pointer_chain.
Qed.

Lemma GenerateSchema_value_or_pointer_witness :
  gptschema.GenerateSchema more_types 6 (Some "**Item") [] =
  gptschema.GenerateSchema more_types 6 (Some "Item") [].
Proof.
  apply (GenerateSchema_value_or_pointer more_types 2 6 "**Item" "Item" []); [|lia].
  simpl. split; [done|]. exists "*Item". split; [done|].
  split; [done|]. exists "Item". by repeat split.
Defined.



(** X18.  The errors that [GenerateSchema] makes itself come from the two
    tests of its argument only: the nil value, and a type that is not a
    struct under its pointers.  The third one, for a result of the converter
    that is not a [Schema], is never returned. *)
Theorem GenerateSchema_own_errors (U : reflect.Type_ -> reflect.rtype) (k : nat)
    (v : option reflect.Type_) (opts : list gptschema.Option) (msg : string) :
  gptschema.GenerateSchema U k v opts = gptschema.Failed (gptschema.Errorf msg) ->
  (v = None /\ msg = "cannot generate schema for nil value") \/
  (exists t t1, v = Some t /\ deref U k t = Ok t1 /\
                reflect.kind (U t1) <> reflect.Struct /\
                msg = "the schema is expected to be a Go struct").
Proof.
  unfold gptschema.GenerateSchema. intros E.
  destruct v as [t|]; [right|left; by simplify_eq].
  destruct (deref U k t) as [t1| | |] eqn:Ed; try done.
  exists t, t1.
  destruct (reflect.kind (U t1)) eqn:Hk;
    try (simplify_eq; repeat split; done).
  destruct (JsonTypeOf U k t1 ∅ 0 _) as [[s| | |] v1] eqn:Ej; try done.
  by destruct (JsonTypeOf_struct_Ok U k t1 ∅ 0 _ s v1 Hk Ej) as (ps & rq & -> & _).
Qed.

Lemma GenerateSchema_own_errors_witness :
  (Some "map[string]int" = None /\
   "the schema is expected to be a Go struct" = "cannot generate schema for nil value") \/
  (exists t t1, Some "map[string]int" = Some t /\ deref more_types 3 t = Ok t1 /\
                reflect.kind (more_types t1) <> reflect.Struct /\
                "the schema is expected to be a Go struct" =
                "the schema is expected to be a Go struct").
Proof.
  apply (GenerateSchema_own_errors more_types 3 (Some "map[string]int") []).
  vm_compute. reflexivity.
Defined.

(** X19.  Of several [WithMaxDepth] options the last one counts, and no
    option at all is [WithMaxDepth(50)]: the outcome of [GenerateSchema] is
    that of the call with the last depth alone. *)
Theorem last_WithMaxDepth_wins (U : reflect.Type_ -> reflect.rtype) (k : nat)
    (v : option reflect.Type_) (depths : list Z) (depth : Z) :
  gptschema.GenerateSchema U k v (map gptschema.WithMaxDepth (depths ++ [depth])) =
  gptschema.GenerateSchema U k v [gptschema.WithMaxDepth depth] /\
  gptschema.GenerateSchema U k v [] =
  gptschema.GenerateSchema U k v [gptschema.WithMaxDepth 50].
Proof.
  split; [|done].
  unfold gptschema.GenerateSchema.
  rewrite applyOptions_WithMaxDepth, last_snoc.
  by change (gptschema.applyOptions [gptschema.WithMaxDepth depth])
    with (with_MaxDepth DefaultOptions depth).
Qed.

(** X20.  The revision of [GenerateSchema] without options agrees with the
    current one, called without options, on every struct under any number of
    pointer layers; and whatever schema it returns, for a root that is not a
    struct too, is a node: its wrapping as [{"type": result}] only ever wraps
    the name of a primitive type. *)
Theorem legacy_GenerateSchema (U : reflect.Type_ -> reflect.rtype) (n k : nat)
    (t inner : reflect.Type_) :
  pointer_chain U n t inner -> (n < k)%nat ->
  (reflect.kind (U inner) = reflect.Struct ->
   gptschema0.GenerateSchema U k (Some t) = gptschema.GenerateSchema U k (Some t) []) /\
  (forall schema, gptschema0.GenerateSchema U k (Some t) = gptschema.Schema schema ->
     Node DefaultOptions (VSchema schema)).
Proof.
  intros Hc Hn. pose proof (deref_pointer_chain U n t inner k Hc Hn) as Ed.
  unfold gptschema0.GenerateSchema, gptschema.GenerateSchema. rewrite Ed.
  change (gptschema.applyOptions []) with DefaultOptions.
  destruct (JsonTypeOf U k inner ∅ 0 DefaultOptions) as [[s| | |] v1] eqn:E.
  - split.
    + intros Hk. rewrite Hk.
      by destruct (JsonTypeOf_struct_Ok U k inner ∅ 0 _ s v1 Hk E) as (ps & rq & -> & _).
    + intros schema Hs.
      destruct (proj1 (nodes_all U DefaultOptions k) _ _ _ _ _ E)
        as [(name & Hname & ->)|HN].
      * simplify_eq. by constructor.
      * destruct (Node_is_schema _ _ HN) as [m ->]. by simplify_eq.
  - split; [by intros ->|done].
  - split; [by intros ->|done].
  - split; [by intros ->|done].
Qed.

Lemma legacy_GenerateSchema_witness :
  (reflect.kind (more_types "Cart") = reflect.Struct ->
   gptschema0.GenerateSchema more_types 6 (Some "*Cart") =
   gptschema.GenerateSchema more_types 6 (Some "*Cart") []) /\
  (forall schema,
     gptschema0.GenerateSchema more_types 6 (Some "*Cart") = gptschema.Schema schema ->
     Node DefaultOptions (VSchema schema)).
Proof.
  apply (legacy_GenerateSchema more_types 1 6 "*Cart" "Cart"); [|lia].
  simpl. split; [done|]. exists "Cart". by repeat split.
Defined.



(** X22.  A negative depth limit refuses every struct: with
    [WithMaxDepth(d)], [d < 0], as the last option, [GenerateSchema] fails
    with [ErrCircularRef] on a struct under any number of pointer layers,
    cyclic or not, since the first call is already at depth 0. *)
Theorem negative_MaxDepth_refuses_all (U : reflect.Type_ -> reflect.rtype)
    (n k : nat) (t inner : reflect.Type_) (depths : list Z) (depth : Z) :
  pointer_chain U n t inner -> (n < k)%nat ->
  reflect.kind (U inner) = reflect.Struct -> depth < 0 ->
  gptschema.GenerateSchema U k (Some t)
    (map gptschema.WithMaxDepth (depths ++ [depth])) =
  gptschema.Failed (gptschema.Returned ErrCircularRef).
Proof.
  intros Hc Hn Hk Hd. unfold gptschema.GenerateSchema.
  rewrite (deref_pointer_chain U n t inner k Hc Hn), Hk.
  rewrite applyOptions_WithMaxDepth, last_snoc.
  spend k. rewrite JsonTypeOf_too_deep; [done|]. simpl. lia.
Qed.

Lemma negative_MaxDepth_refuses_all_witness :
  gptschema.GenerateSchema more_types 2 (Some "*Item")
    (map gptschema.WithMaxDepth ([10] ++ [-1])) =
  gptschema.Failed (gptschema.Returned ErrCircularRef).
Proof.
  apply (negative_MaxDepth_refuses_all more_types 1 2 "*Item" "Item" [10] (-1));
    [|lia|reflexivity|lia].
  simpl. split; [done|]. exists "Item". by repeat split.
Defined.
